(** * Equipment valuation: the request/cache pipeline

    A shallow embedding of [backend/valuation_engine/claude_valuation.py]:
    fingerprinting of equipment rows, the on-disk result cache with its
    in-process [lru_cache] front, the response parser, the retrying
    valuation client, the batch driver and the enhancement pass.

    Python values are embedded as follows.
    - [str] is [string]; [str.find]/[str.rfind] return a [Z] with [-1] for
      "not found", exactly as in Python.
    - What [json.loads] produces is the inductive [json]; Python's [None] is
      [JNull], a [dict] is an association list in insertion order.  JSON
      numbers are kept to the integers: no property below looks inside a
      number.
    - A pandas row is a finite map from column label to [cell].
    - Exceptions are explicit: a computation returns [Val v] or [Raise e].
    - The file system under [./cache], the [lru_cache] table and the log of
      external effects (service calls, sleeps) form the [world] threaded
      through every effectful function.
    - [hashlib.md5], [json.dumps], [json.loads] and the remote service are
      library or network code outside the repository; they are section
      variables.  [json.loads] applied to a [str] returns a value or raises:
      [json.JSONDecodeError] for malformed text, and other exceptions too
      ([ValueError] for an integer literal beyond the interpreter's digit
      limit, [RecursionError] for nesting that is too deep).
    - [claude_valuation.py] never imports pandas, so the global name [pd]
      is unbound in it: each [pd.isna(...)] it evaluates raises
      [NameError].  [data_processor.py] does import pandas; there [pd.isna]
      is pandas' missing-value test.
    - [message.content] is the text of the response.  Console output
      ([print], the [tqdm] progress bar) and the creation of the cache
      directory are not modelled. *)

From Stdlib Require Import ZArith String Ascii List Bool QArith.
From stdpp Require Import gmap strings list pretty.

Open Scope string_scope.
Open Scope Z_scope.

(** ** Characters the source text uses *)

Definition nl : string := String (ascii_of_nat 10) "".
Definition dq : string := String (ascii_of_nat 34) "".
Definition sq : string := String (ascii_of_nat 39) "".

(** A string between double quotes. *)
Definition quoted (s : string) : string := dq +:+ s +:+ dq.

(** ** Python strings *)

(** [s.find(sub)]: index of the first occurrence, [-1] when there is none. *)
Definition str_find (sub s : string) : Z :=
  match String.index 0 sub s with
  | Some i => Z.of_nat i
  | None => -1
  end.

(** Index of the last occurrence of [sub] in [s]. *)
Fixpoint rindex (sub s : string) : option nat :=
  match s with
  | EmptyString => match sub with EmptyString => Some 0%nat | _ => None end
  | String _ s' =>
      match rindex sub s' with
      | Some i => Some (S i)
      | None => if String.prefix sub s then Some 0%nat else None
      end
  end.

(** [s.rfind(sub)]. *)
Definition str_rfind (sub s : string) : Z :=
  match rindex sub s with
  | Some i => Z.of_nat i
  | None => -1
  end.

(** The character does not occur in the string. *)
Fixpoint lacks (c : ascii) (s : string) : bool :=
  match s with
  | EmptyString => true
  | String a s' => negb (Ascii.eqb a c) && lacks c s'
  end.

(** Normalisation of one slice bound: a negative bound counts from the end,
    and the bound is clamped to the string. *)
Definition slice_bound (len i : Z) : Z :=
  Z.max 0 (Z.min len (if i <? 0 then i + len else i)).

(** [s[start:stop]]. *)
Definition str_slice (s : string) (start stop : Z) : string :=
  let len := Z.of_nat (String.length s) in
  let a := slice_bound len start in
  let b := slice_bound len stop in
  String.substring (Z.to_nat a) (Z.to_nat (b - a)) s.

(** ** JSON values, as [json.loads] returns them *)

Set Warnings "-register-all".

Inductive json : Type :=
| JNull
| JBool (b : bool)
| JInt (z : Z)
| JStr (s : string)
| JList (items : list json)
| JDict (fields : list (string * json)).

(** Python truthiness ([if v:]). *)
Definition truthy (v : json) : bool :=
  match v with
  | JNull => false
  | JBool b => b
  | JInt z => negb (z =? 0)
  | JStr s => negb (String.eqb s "")
  | JList items => match items with [] => false | _ => true end
  | JDict fields => match fields with [] => false | _ => true end
  end.

(** [isinstance(v, dict)]. *)
Definition is_dict (v : json) : bool :=
  match v with JDict _ => true | _ => false end.

(** *** Dictionaries: association lists in insertion order *)

Fixpoint dict_get (k : string) (d : list (string * json)) : option json :=
  match d with
  | [] => None
  | (k', v) :: d' => if String.eqb k' k then Some v else dict_get k d'
  end.

(** [k in d]. *)
Definition dict_in (k : string) (d : list (string * json)) : bool :=
  match dict_get k d with Some _ => true | None => false end.

(** [d[k] = v]: an existing key keeps its place, a new key goes last. *)
Fixpoint dict_set (k : string) (v : json) (d : list (string * json))
  : list (string * json) :=
  match d with
  | [] => [(k, v)]
  | (k', v') :: d' =>
      if String.eqb k' k then (k, v) :: d' else (k', v') :: dict_set k v d'
  end.

(** [v.get(k)] on a value: [None] for a missing key. *)
Definition get_or (k : string) (default : json) (d : list (string * json)) : json :=
  match dict_get k d with Some v => v | None => default end.

(** [k in v] for a value that may or may not be a mapping. *)
Definition has_key (k : string) (v : json) : bool :=
  match v with JDict d => dict_in k d | _ => false end.

(** [v[k]] read back from a value. *)
Definition field (k : string) (v : json) : option json :=
  match v with JDict d => dict_get k d | _ => None end.

(** ** Exceptions *)

Inductive exn : Type :=
| KeyError (key : string)
| NameError (name : string)
| JSONDecodeError
| ValueError (msg : string)
| RecursionError (msg : string)
| ServiceError (msg : string).

(** [str(e)].  A [KeyError] renders its key quoted, a [NameError] names
    the unbound name; the decoder's own error is caught wherever it can
    arise and is never rendered by the code under study. *)
Definition str_exn (e : exn) : string :=
  match e with
  | KeyError k => sq +:+ k +:+ sq
  | NameError name => "name " +:+ sq +:+ name +:+ sq +:+ " is not defined"
  | JSONDecodeError => "JSONDecodeError"
  | ValueError msg => msg
  | RecursionError msg => msg
  | ServiceError msg => msg
  end.

Inductive res (A : Type) : Type :=
| Val (a : A)
| Raise (e : exn).
Arguments Val {A} a.
Arguments Raise {A} e.

Definition res_bind {A B} (r : res A) (k : A -> res B) : res B :=
  match r with
  | Val a => k a
  | Raise e => Raise e
  end.

(** ** Rows of the equipment table *)

Inductive cell : Type :=
| CStr (s : string)
| CInt (z : Z)
| CNaN.

(** [pd.isna] where pandas is imported ([data_processor.py]). *)
Definition pd_isna (c : cell) : bool :=
  match c with CNaN => true | _ => false end.

(** [pd.isna(c)] as [claude_valuation.py] evaluates it: the module has no
    [import pandas as pd], so the lookup of the global [pd] raises before
    anything is tested. *)
Definition unbound_pd_isna (c : cell) : res bool := Raise (NameError "pd").

(** What an f-string renders for a cell. *)
Definition str_cell (c : cell) : string :=
  match c with
  | CStr s => s
  | CInt z => pretty z
  | CNaN => "nan"
  end.

Abbreviation row := (gmap string cell).

(** [row[k]]. *)
Definition row_getitem (r : row) (k : string) : res cell :=
  match r !! k with
  | Some c => Val c
  | None => Raise (KeyError k)
  end.

(** [k in row and not pd.isna(row[k])] where pandas is imported,
    returning the cell when it holds. *)
Definition present (r : row) (k : string) : option cell :=
  match r !! k with
  | Some c => if pd_isna c then None else Some c
  | None => None
  end.

(** ** Fingerprint: the string that is hashed *)

(** [if k in row and not pd.isna(row[k]): s += render(row[k])], as the
    valuation module runs it.  The test of the value is only reached when
    the column is there. *)
Definition add_if_present (r : row) (k : string) (render : cell -> string)
    (s : string) : res string :=
  match r !! k with
  | Some c =>
      res_bind (unbound_pd_isna c) (fun na =>
        Val (if na : bool then s else s +:+ render c))
  | None => Val s
  end.

(** The [item_str] of [get_equipment_hash], before hashing. *)
Definition item_str (r : row) : res string :=
  res_bind (row_getitem r "Unit #") (fun unit =>
  res_bind (row_getitem r "Description") (fun descr =>
  res_bind (add_if_present r "Year" (fun y => "|" +:+ str_cell y)
              (str_cell unit +:+ "|" +:+ str_cell descr)) (fun s1 =>
  add_if_present r "Condition" (fun c => "|" +:+ str_cell c) s1))).

(** The row has the two columns every equipment record has. *)
Definition has_required_fields (r : row) : bool :=
  match r !! "Unit #", r !! "Description" with
  | Some _, Some _ => true
  | _, _ => false
  end.

(** The row has no column of the given label. *)
Definition lacks_column (r : row) (k : string) : bool :=
  match r !! k with Some _ => false | None => true end.

(** The two required columns, and neither of the optional columns that
    [get_equipment_hash] tests. *)
Definition hashable_record (r : row) : bool :=
  has_required_fields r && lacks_column r "Year" && lacks_column r "Condition".

(** The two required columns, and none of the optional columns that
    [process_equipment_item] tests. *)
Definition plain_record (r : row) : bool :=
  hashable_record r && lacks_column r "Location".




(** ** Data checks and cleaning ([backend/data_processors/data_processor.py])

    Text is taken to be ASCII: [str.lower] acts on the letters A to Z and
    [len] counts characters. *)

Definition lower_ascii (c : ascii) : ascii :=
  let n := N_of_ascii c in
  if ((65 <=? n) && (n <=? 90))%N then ascii_of_N (n + 32) else c.

(** [s.lower()]. *)
Fixpoint str_lower (s : string) : string :=
  match s with
  | EmptyString => EmptyString
  | String c s' => String (lower_ascii c) (str_lower s')
  end.

(** [sub in s] for two strings. *)
Fixpoint str_contains (sub s : string) : bool :=
  match s with
  | EmptyString => String.prefix sub s
  | String _ s' => String.prefix sub s || str_contains sub s'
  end.

(** [issues.append(f"Missing {field}")] when the column is there and the
    value is missing. *)
Definition missing_issue (r : row) (field : string) : list string :=
  match r !! field with
  | Some c => if pd_isna c then ["Missing " +:+ field] else []
  | None => []
  end.

(** The check of the year against [1900] and next year.  [None] stands for
    the [TypeError] that comparing a text with a number raises. *)
Definition year_issue (current_year : Z) (r : row) : option (list string) :=
  match r !! "Year" with
  | Some (CInt year) =>
      Some (if (year <? 1900) || (year >? current_year + 1)
            then ["Questionable year: " +:+ pretty year]
            else [])
  | Some (CStr _) => None
  | Some CNaN => Some []
  | None => Some []
  end.

Definition description_issue (r : row) : list string :=
  match present r "Description" with
  | Some c =>
      if (String.length (str_cell c) <? 5)%nat then ["Description too short"] else []
  | None => []
  end.

(** [identify_data_issues(row)], with [pd.Timestamp.now().year] given. *)
Definition identify_data_issues (current_year : Z) (r : row) : option (list string) :=
  let issues :=
    (missing_issue r "Description" ++ missing_issue r "Year"
     ++ missing_issue r "Condition")%list in
  match year_issue current_year r with
  | Some questionable => Some (issues ++ questionable ++ description_issue r)%list
  | None => None
  end.

(** The [condition_mapping] of [clean_data], in the order it is written. *)
Definition condition_mapping : list (string * string) :=
  [("excellent", "Excellent"); ("exc", "Excellent"); ("good", "Good");
   ("fair", "Fair"); ("poor", "Poor"); ("broken", "Poor");
   ("damaged", "Poor"); ("new", "Excellent"); ("like new", "Excellent");
   ("used", "Good"); ("working", "Good"); ("non-working", "Poor");
   ("non working", "Poor"); ("unknown", "Unknown")].

(** [next((v for k, v in mapping.items() if k in text), None)]. *)
Fixpoint first_match (mapping : list (string * string)) (text : string)
  : option string :=
  match mapping with
  | [] => None
  | (k, v) :: rest => if str_contains k text then Some v else first_match rest text
  end.

(** The [lambda x] that [clean_data] maps over the condition column. *)
Definition map_condition (x : string) : string :=
  match first_match condition_mapping (str_lower x) with
  | Some v => v
  | None => x
  end.

(** What [clean_data] makes of one condition cell holding a text, or
    holding nothing ([None]): [fillna('Unknown')], [.str.lower()], then the
    mapping. *)
Definition clean_condition (c : option string) : string :=
  map_condition (str_lower (match c with Some s => s | None => "Unknown" end)).

(** ** Result files ([batch_process.py]) *)

(** [s.replace(old, new)] for one-character [old] and [new]. *)
Fixpoint str_replace_char (old new : ascii) (s : string) : string :=
  match s with
  | EmptyString => EmptyString
  | String c s' =>
      String (if Ascii.eqb c old then new else c) (str_replace_char old new s')
  end.

(** [str(unit_id).replace('/', '-').replace('\\', '-')]. *)
Definition safe_id (unit_id : cell) : string :=
  str_replace_char "\"%char "-"%char
    (str_replace_char "/"%char "-"%char (str_cell unit_id)).

(** [s.endswith(suffix)]. *)
Definition str_endswith (suffix s : string) : bool :=
  (String.length suffix <=? String.length s)%nat
  && String.eqb (String.substring (String.length s - String.length suffix)
                                  (String.length suffix) s) suffix.

(** [os.path.join(a, b)] on POSIX. *)
Definition path_join (a b : string) : string :=
  if String.prefix "/" b then b
  else if String.eqb a "" then b
  else if str_endswith "/" a then a +:+ b
  else a +:+ "/" +:+ b.

(** The key [json.dump] writes for a unit id of the results mapping. *)
Definition json_key (unit_id : cell) : string :=
  match unit_id with
  | CStr s => s
  | CInt z => pretty z
  | CNaN => "NaN"
  end.

(** ** The world: cache directory, memo table, external effects *)

(** One [client.messages.create] request. *)
Record request : Type := Request {
  req_model : string;
  req_max_tokens : Z;
  req_temperature : Q;
  req_system : string;
  req_prompt : string
}.

Inductive event : Type :=
| ECall (rq : request)
| ESleep (secs : Q).

Record world : Type := World {
  disk : gmap string string;      (* path -> file contents *)
  memo : list (string * json);    (* the lru_cache table, most recent first *)
  trace : list event              (* external effects, oldest first *)
}.

Definition set_disk (d : gmap string string) (w : world) : world :=
  World d (memo w) (trace w).
Definition set_memo (m : list (string * json)) (w : world) : world :=
  World (disk w) m (trace w).
Definition log (e : event) (w : world) : world :=
  World (disk w) (memo w) (trace w ++ [e]).

(** [f"{cache_dir}/{equipment_hash}.json"] with [cache_dir = "./cache"]. *)
Definition cache_path (equipment_hash : string) : string :=
  "./cache/" +:+ equipment_hash +:+ ".json".

(** Effectful computations: state passing with exceptions.  A raise keeps
    the state it was raised in, as in Python. *)
Definition M (A : Type) : Type := world -> res A * world.

Definition ret {A} (a : A) : M A := fun w => (Val a, w).
Definition raise {A} (e : exn) : M A := fun w => (Raise e, w).
Definition bind {A B} (m : M A) (k : A -> M B) : M B :=
  fun w => match m w with
           | (Val a, w') => k a w'
           | (Raise e, w') => (Raise e, w')
           end.
Definition lift {A} (r : res A) : M A := fun w => (r, w).

(** [try: body  except Exception as e: handler e]. *)
Definition try_except {A} (body : M A) (handler : exn -> M A) : M A :=
  fun w => match body w with
           | (Val a, w') => (Val a, w')
           | (Raise e, w') => handler e w'
           end.

Declare Scope py_scope.
Delimit Scope py_scope with py.
Notation "'let*' x ':=' m 'in' k" := (bind m (fun x => k))
  (at level 10, x name, m at level 100, k at level 200) : py_scope.
Notation "m ';;' k" := (bind m (fun _ => k))
  (at level 100, k at level 200, right associativity) : py_scope.
Open Scope py_scope.

(** [time.sleep(secs)]. *)
Definition sleep (secs : Q) : M unit := fun w => (Val tt, log (ESleep secs) w).

(** How many requests the service has received so far. *)
Fixpoint calls_made (t : list event) : nat :=
  match t with
  | [] => 0%nat
  | ECall _ :: t' => S (calls_made t')
  | ESleep _ :: t' => calls_made t'
  end.

(** Sleeps recorded in a log, in order. *)
Fixpoint sleeps (t : list event) : list Q :=
  match t with
  | [] => []
  | ESleep q :: t' => q :: sleeps t'
  | ECall _ :: t' => sleeps t'
  end.

(** How many half-second pauses (the [time.sleep(0.5)] of the batch
    loop) a log records. *)
Fixpoint pauses (t : list event) : nat :=
  match t with
  | [] => 0%nat
  | ESleep (Qmake 1 1%positive~0) :: t' => S (pauses t')
  | _ :: t' => pauses t'
  end.

(** ** Association lists for the memo table and the batch result *)

Section Assoc.
Context {K V : Type} `{EqDecision K}.

Fixpoint assoc_lookup (k : K) (l : list (K * V)) : option V :=
  match l with
  | [] => None
  | (k', v) :: l' => if decide (k' = k) then Some v else assoc_lookup k l'
  end.

Fixpoint assoc_remove (k : K) (l : list (K * V)) : list (K * V) :=
  match l with
  | [] => []
  | (k', v) :: l' =>
      if decide (k' = k) then assoc_remove k l' else (k', v) :: assoc_remove k l'
  end.

(** [d[k] = v] on a dict in insertion order. *)
Fixpoint assoc_set (k : K) (v : V) (l : list (K * V)) : list (K * V) :=
  match l with
  | [] => [(k, v)]
  | (k', v') :: l' =>
      if decide (k' = k) then (k, v) :: l' else (k', v') :: assoc_set k v l'
  end.
End Assoc.

#[global] Instance cell_eq_dec : EqDecision cell.
Proof. solve_decision. Defined.

(** ** Reference instances for closed examples

    The theorems below hold for every digest, codec and service.  Closed
    examples need concrete ones: a decoder and encoder for the integer
    fragment of JSON, an injective hexadecimal stand-in for the digest,
    and services that answer from a script. *)

Module Ref.

Definition hex_digit (n : N) : ascii :=
  match String.get (N.to_nat n) "0123456789abcdef" with
  | Some c => c
  | None => "0"%char
  end.

Fixpoint hexdigest (s : string) : string :=
  match s with
  | EmptyString => EmptyString
  | String c s' =>
      let n := N_of_ascii c in
      String (hex_digit (n / 16)%N) (String (hex_digit (n mod 16)%N) (hexdigest s'))
  end.

(** *** Encoder *)

Fixpoint escape (s : string) : string :=
  match s with
  | EmptyString => EmptyString
  | String c s' =>
      if Ascii.eqb c (ascii_of_nat 34) then String "\"%char (String c (escape s'))
      else if Ascii.eqb c "\"%char then String "\"%char (String c (escape s'))
      else if Ascii.eqb c (ascii_of_nat 10) then String "\"%char (String "n"%char (escape s'))
      else String c (escape s')
  end.

Definition dump_str (s : string) : string := dq +:+ escape s +:+ dq.

Fixpoint dumps (v : json) : string :=
  match v with
  | JNull => "null"
  | JBool true => "true"
  | JBool false => "false"
  | JInt z => pretty z
  | JStr s => dump_str s
  | JList items => "[" +:+ String.concat ", " (map dumps items) +:+ "]"
  | JDict fields =>
      "{" +:+ String.concat ", "
                (map (fun kv => dump_str (fst kv) +:+ ": " +:+ dumps (snd kv)) fields)
          +:+ "}"
  end.

(** *** Decoder

    The integers, strings, lists and objects of JSON as CPython's
    [json.loads] reads them.  Malformed text raises [JSONDecodeError].  An
    integer literal of more than 4300 digits raises the [ValueError] of the
    interpreter's integer conversion (the default limit of CPython 3.11 and
    later).  Numbers with a fraction or an exponent are outside the
    fragment and are rejected. *)

Definition is_ws (c : ascii) : bool :=
  Ascii.eqb c " "%char || Ascii.eqb c (ascii_of_nat 10)
  || Ascii.eqb c (ascii_of_nat 9) || Ascii.eqb c (ascii_of_nat 13).

Fixpoint skip_ws (s : string) : string :=
  match s with
  | String c s' => if is_ws c then skip_ws s' else s
  | EmptyString => s
  end.

Definition digit_of (c : ascii) : option Z :=
  let n := Z.of_N (N_of_ascii c) in
  if (48 <=? n) && (n <=? 57) then Some (n - 48) else None.

Fixpoint read_digits (s : string) (acc : Z) : Z * string :=
  match s with
  | String c s' =>
      match digit_of c with
      | Some d => read_digits s' (10 * acc + d)
      | None => (acc, s)
      end
  | EmptyString => (acc, s)
  end.

(** How many digits the string starts with. *)
Fixpoint count_digits (s : string) : nat :=
  match s with
  | String c s' =>
      match digit_of c with
      | Some _ => S (count_digits s')
      | None => 0%nat
      end
  | EmptyString => 0%nat
  end.

(** [sys.get_int_max_str_digits()], by default. *)
Definition int_max_str_digits : nat := 4300.

(** What [int(literal)] raises for a literal of [n] digits, [n] beyond the
    limit. *)
Definition digits_error (n : nat) : exn :=
  ValueError ("Exceeds the limit (4300 digits) for integer string conversion: value has "
              +:+ pretty n
              +:+ " digits; use sys.set_int_max_str_digits() to increase the limit").

(** After the opening quote: the text up to the closing quote. *)
Fixpoint read_string (s : string) : option (string * string) :=
  match s with
  | EmptyString => None
  | String c s' =>
      if Ascii.eqb c (ascii_of_nat 34) then Some (EmptyString, s')
      else if Ascii.eqb c (ascii_of_nat 10) then None
      else if Ascii.eqb c "\"%char then
        match s' with
        | String e s'' =>
            let unescaped :=
              if Ascii.eqb e "n"%char then Some (ascii_of_nat 10)
              else if Ascii.eqb e "t"%char then Some (ascii_of_nat 9)
              else if Ascii.eqb e (ascii_of_nat 34) || Ascii.eqb e "\"%char
                      || Ascii.eqb e "/"%char then Some e
              else None in
            match unescaped, read_string s'' with
            | Some a, Some (body, rest) => Some (String a body, rest)
            | _, _ => None
            end
        | EmptyString => None
        end
      else
        match read_string s' with
        | Some (body, rest) => Some (String c body, rest)
        | None => None
        end
  end.

Definition expect (word : string) (v : json) (s : string) : res (json * string) :=
  if String.prefix word s
  then Val (v, String.substring (String.length word)
                                (String.length s - String.length word) s)
  else Raise JSONDecodeError.

(** The text goes on as a fraction or an exponent. *)
Definition float_tail (s : string) : bool :=
  match s with
  | String c _ => Ascii.eqb c "."%char || Ascii.eqb c "e"%char || Ascii.eqb c "E"%char
  | EmptyString => false
  end.

(** The digits of an integer literal: [0] alone, or a run of digits that
    does not start with [0]. *)
Definition read_int (sign : Z) (s : string) : res (json * string) :=
  match s with
  | String d s' =>
      match digit_of d with
      | Some 0 => Val (JInt 0, s')
      | Some _ =>
          let '(n, rest) := read_digits s 0 in
          if float_tail rest then Raise JSONDecodeError
          else if (int_max_str_digits <? count_digits s)%nat
          then Raise (digits_error (count_digits s))
          else Val (JInt (sign * n), rest)
      | None => Raise JSONDecodeError
      end
  | EmptyString => Raise JSONDecodeError
  end.

Definition read_number (s : string) : res (json * string) :=
  match s with
  | String c s' => if Ascii.eqb c "-"%char then read_int (-1) s' else read_int 1 s
  | EmptyString => Raise JSONDecodeError
  end.

Fixpoint read_value (fuel : nat) (s : string) : res (json * string) :=
  match fuel with
  | O => Raise JSONDecodeError
  | S fuel' =>
      match skip_ws s with
      | EmptyString => Raise JSONDecodeError
      | String c rest =>
          if Ascii.eqb c "n"%char then expect "null" JNull (String c rest)
          else if Ascii.eqb c "t"%char then expect "true" (JBool true) (String c rest)
          else if Ascii.eqb c "f"%char then expect "false" (JBool false) (String c rest)
          else if Ascii.eqb c (ascii_of_nat 34) then
            match read_string rest with
            | Some (body, rest') => Val (JStr body, rest')
            | None => Raise JSONDecodeError
            end
          else if Ascii.eqb c "["%char then
            match skip_ws rest with
            | String c' rest' =>
                if Ascii.eqb c' "]"%char then Val (JList [], rest')
                else read_items fuel' rest []
            | EmptyString => Raise JSONDecodeError
            end
          else if Ascii.eqb c "{"%char then
            match skip_ws rest with
            | String c' rest' =>
                if Ascii.eqb c' "}"%char then Val (JDict [], rest')
                else read_members fuel' rest []
            | EmptyString => Raise JSONDecodeError
            end
          else read_number (String c rest)
      end
  end
with read_items (fuel : nat) (s : string) (acc : list json) : res (json * string) :=
  match fuel with
  | O => Raise JSONDecodeError
  | S fuel' =>
      match read_value fuel' s with
      | Val (v, rest) =>
          match skip_ws rest with
          | String c rest' =>
              if Ascii.eqb c ","%char then read_items fuel' rest' (acc ++ [v])
              else if Ascii.eqb c "]"%char then Val (JList (acc ++ [v]), rest')
              else Raise JSONDecodeError
          | EmptyString => Raise JSONDecodeError
          end
      | Raise e => Raise e
      end
  end
with read_members (fuel : nat) (s : string) (acc : list (string * json))
  : res (json * string) :=
  match fuel with
  | O => Raise JSONDecodeError
  | S fuel' =>
      match skip_ws s with
      | String q s1 =>
          if Ascii.eqb q (ascii_of_nat 34) then
            match read_string s1 with
            | Some (k, s2) =>
                match skip_ws s2 with
                | String colon s3 =>
                    if Ascii.eqb colon ":"%char then
                      match read_value fuel' s3 with
                      | Val (v, rest) =>
                          match skip_ws rest with
                          | String c rest' =>
                              if Ascii.eqb c ","%char
                              then read_members fuel' rest' (dict_set k v acc)
                              else if Ascii.eqb c "}"%char
                              then Val (JDict (dict_set k v acc), rest')
                              else Raise JSONDecodeError
                          | EmptyString => Raise JSONDecodeError
                          end
                      | Raise e => Raise e
                      end
                    else Raise JSONDecodeError
                | EmptyString => Raise JSONDecodeError
                end
            | None => Raise JSONDecodeError
            end
          else Raise JSONDecodeError
      | EmptyString => Raise JSONDecodeError
      end
  end.

Definition loads (s : string) : res json :=
  match read_value (2 * String.length s + 2) s with
  | Val (v, rest) =>
      match skip_ws rest with
      | EmptyString => Val v
      | _ => Raise JSONDecodeError
      end
  | Raise e => Raise e
  end.

(** A service that answers the [n]-th request with the [n]-th entry of a
    script and refuses once the script is used up. *)
Definition scripted (script : list (string + string)) : nat -> request -> string + string :=
  fun n _ => nth n script (inl "connection refused").

Definition empty_world : world := World ∅ [] [].

End Ref.


(** ** Sample data for closed examples *)

Module Sample.

(** The record of the end-to-end scenario. *)
Definition row_A1 : row :=
  <["Unit #" := CStr "A1"]> (<["Description" := CStr "2015 Dozer"]> ∅).

(** The same record with a location, which is not an identity field. *)
Definition row_A1_located : row := <["Location" := CStr "Texas"]> row_A1.


Definition h_A1 : string := Ref.hexdigest "A1|2015 Dozer".



Definition valuation : json :=
  JDict [("new_value", JInt 50000);
         ("current_value_range", JList [JInt 15000; JInt 20000]);
         ("confidence", JStr "medium")].

Definition valuation_text : string :=
  "{" +:+ quoted "new_value" +:+ ": 50000, "
      +:+ quoted "current_value_range" +:+ ": [15000, 20000], "
      +:+ quoted "confidence" +:+ ": " +:+ quoted "medium" +:+ "}".

(** A response with a fenced block, and braces before and after it. *)
Definition structured_reply : string :=
  "Comparable sales {see below}:" +:+ nl
  +:+ "```json" +:+ nl +:+ valuation_text +:+ nl +:+ "```" +:+ nl
  +:+ "Figures in {USD}.".

(** A response that is a JSON object with an [error] key. *)
Definition error_reply : string :=
  "{" +:+ quoted "error" +:+ ": " +:+ quoted "quota exceeded" +:+ "}".

(** A response whose fenced block is a JSON list. *)
Definition list_reply : string :=
  "```json" +:+ nl +:+ "[1, 2]" +:+ nl +:+ "```".

(** A response with nothing to deserialize. *)
Definition prose_reply : string := "I cannot value this item.".

(** [s * n]. *)
Fixpoint str_repeat (s : string) (n : nat) : string :=
  match n with
  | O => ""
  | S n' => s +:+ str_repeat s n'
  end.

(** An integer literal of 5000 digits. *)
Definition huge_integer : string := str_repeat "1" 5000.

(** A response whose fenced block is that literal. *)
Definition huge_integer_reply : string :=
  "```json" +:+ nl +:+ huge_integer +:+ nl +:+ "```".

(** A response with the same literal inside braces and no fenced block. *)
Definition huge_integer_object : string :=
  "{" +:+ quoted "new_value" +:+ ": " +:+ huge_integer +:+ "}".

(** A response with a [justification] and no [enhanced_analysis]. *)
Definition justified_reply : string :=
  "{" +:+ quoted "new_value" +:+ ": 52000, "
      +:+ quoted "justification" +:+ ": " +:+ quoted "Strong regional demand" +:+ "}".

Definition unit_row (unit : string) : row :=
  <["Unit #" := CStr unit]> (<["Description" := CStr "Excavator"]> ∅).

(** Five records, in input order. *)
Definition fleet : list row :=
  [unit_row "U1"; unit_row "U2"; unit_row "U3"; unit_row "U4"; unit_row "U5"].

(** A service that always answers with the same text. *)
Definition always (content : string) : nat -> request -> string + string :=
  fun _ _ => inr content.

(** A fresh process started on a cache directory holding one entry. *)
Definition world_with (equipment_hash contents : string) : world :=
  World {[cache_path equipment_hash := contents]} [] [].

(** A record without a description. *)
Definition row_nameless : row := <["Unit #" := CStr "N1"]> ∅.

(** Three records, the first and the last with the same unit id. *)
Definition repeated : list row :=
  [unit_row "U1"; unit_row "U2"; unit_row "U1"].

(** A record the data checks have nothing to say about. *)
Definition row_plausible : row :=
  <["Unit #" := CStr "A1"]>
    (<["Description" := CStr "2015 Dozer"]>
       (<["Year" := CInt 2015]> (<["Condition" := CStr "Good"]> ∅))).

(** Results of a batch over two unit ids. *)
Definition two_results : list (cell * json) :=
  [(CStr "U/1", JInt 1); (CStr "U2", JInt 2)].

End Sample.

(** ** The pipeline *)

Section Valuation.

(** [lambda s: hashlib.md5(s.encode()).hexdigest()]. *)
Variable md5_hexdigest : string -> string.
(** [json.dumps(v)] and [json.dumps(v, indent=2)]. *)
Variable json_dumps : json -> string.
Variable json_dumps_indent : json -> string.
(** [json.loads(s)]: the value, or whatever exception it raises. *)
Variable json_loads : string -> res json.
(** The remote service: the answer to the [n]-th request of the run,
    [inl msg] for a request that raises, [inr text] for [message.content]. *)
Variable service : nat -> request -> string + string.

(** *** Fingerprint *)

Definition get_equipment_hash (r : row) : res string :=
  res_bind (item_str r) (fun s => Val (md5_hexdigest s)).

(** *** Result cache *)

(** The body of [get_cached_valuation], without the decorator.  The bare
    [except] turns every exception of the decoder into [None]. *)
Definition read_cache (equipment_hash : string) (d : gmap string string) : json :=
  match d !! cache_path equipment_hash with
  | Some contents =>
      match json_loads contents with
      | Val v => v
      | Raise _ => JNull
      end
  | None => JNull
  end.

Definition lru_maxsize : nat := 1000.

(** [@lru_cache(maxsize=1000)] around [read_cache]: a remembered key is
    answered from the table, also when the remembered answer is [None]. *)
Definition get_cached_valuation (equipment_hash : string) : M json :=
  fun w =>
    match assoc_lookup equipment_hash (memo w) with
    | Some v =>
        (Val v, set_memo ((equipment_hash, v) :: assoc_remove equipment_hash (memo w)) w)
    | None =>
        let v := read_cache equipment_hash (disk w) in
        (Val v, set_memo (firstn lru_maxsize ((equipment_hash, v) :: memo w)) w)
    end.

Definition save_to_cache (equipment_hash : string) (result : json) : M unit :=
  fun w =>
    (Val tt, set_disk (<[cache_path equipment_hash := json_dumps result]> (disk w)) w).

(** *** Response parser *)

Definition fence_open : string := "```json" +:+ nl.
Definition fence_close : string := nl +:+ "```".

(** [re.search(r'```json\n(.*?)\n```', text, re.DOTALL)], group 1.  The
    search is leftmost and the group lazy: the match starts at the first
    opening fence and the group ends at the first closing fence after it.
    (If no closing fence follows the first opening fence, none follows a
    later one either, so there is no match at all.) *)
Definition re_search_json_block (text : string) : option string :=
  match String.index 0 fence_open text with
  | None => None
  | Some i =>
      let body := (i + String.length fence_open)%nat in
      match String.index body fence_close text with
      | None => None
      | Some j => Some (String.substring body (j - body) text)
      end
  end.

(** The substring from the first opening brace to the last closing one,
    when the guard of the second strategy holds. *)
Definition brace_candidate (text : string) : option string :=
  let start := str_find "{" text in
  let end_ := str_rfind "}" text in
  if negb (start =? -1) && negb (end_ =? -1) && (end_ >? start)
  then Some (str_slice text start (end_ + 1))
  else None.

Definition raw_response (text : string) : json :=
  JDict [("raw_response", JStr text)].

(** Second strategy and fallback: the bare [except] swallows everything. *)
Definition parse_braces (response_content : string) : res json :=
  match brace_candidate response_content with
  | Some json_str =>
      match json_loads json_str with
      | Val v => Val v
      | Raise _ => Val (raw_response response_content)
      end
  | None => Val (raw_response response_content)
  end.

(** First strategy: only [json.JSONDecodeError] is caught, any other
    exception of the decoder leaves the function. *)
Definition parse_claude_response (response_content : string) : res json :=
  match re_search_json_block response_content with
  | Some json_str =>
      match json_loads json_str with
      | Val v => Val v
      | Raise JSONDecodeError => parse_braces response_content
      | Raise e => Raise e
      end
  | None => parse_braces response_content
  end.

(** *** Prompts *)

(** [if k in row and not pd.isna(row[k]): prompt += f"- Label: {row[k]}\n"]. *)
Definition optional_line (r : row) (k label : string) (prompt : string)
  : res string :=
  add_if_present r k (fun c => "- " +:+ label +:+ ": " +:+ str_cell c +:+ nl) prompt.

Definition schema_text : string :=
  String.concat nl [
    "";
    "    Please provide your valuation analysis in JSON format with the following structure:";
    "    ";
    "    ```json";
    "    {";
    "      " +:+ quoted "new_value" +:+ ": 50000,";
    "      " +:+ quoted "current_value_range" +:+ ": [15000, 20000],";
    "      " +:+ quoted "confidence" +:+ ": " +:+ quoted "medium" +:+ ",";
    "      " +:+ quoted "comparable_sales" +:+ ": [";
    "        {";
    "          " +:+ quoted "title" +:+ ": " +:+ quoted "2015 CAT D6 Dozer" +:+ ",";
    "          " +:+ quoted "price" +:+ ": 35000,";
    "          " +:+ quoted "url" +:+ ": " +:+ quoted "https://example.com/listing/123" +:+ ",";
    "          " +:+ quoted "date" +:+ ": " +:+ quoted "2025-01-15";
    "        }";
    "      ],";
    "      " +:+ quoted "justification" +:+ ": "
      +:+ quoted "Detailed reasoning for the valuation..." +:+ ",";
    "      " +:+ quoted "key_factors" +:+ ": [" +:+ quoted "Age impact" +:+ ", "
      +:+ quoted "Market trends" +:+ ", " +:+ quoted "Condition factors" +:+ "]";
    "    }";
    "    ```";
    "    ";
    "    Use web search to find comparable sales and current market values. Include specific sources for all information.";
    "    "
  ].

(** The opening of the prompt, up to the optional lines. *)
Definition prompt_head (unit descr : cell) : string :=
  String.concat nl [
    "";
    "    I need a detailed valuation for this equipment:";
    "    - Unit #: " +:+ str_cell unit;
    "    - Description: " +:+ str_cell descr;
    "    "
  ].

Definition valuation_prompt (r : row) : res string :=
  res_bind (row_getitem r "Unit #") (fun unit =>
  res_bind (row_getitem r "Description") (fun descr =>
  res_bind (optional_line r "Year" "Year" (prompt_head unit descr)) (fun p1 =>
  res_bind (optional_line r "Location" "Location" p1) (fun p2 =>
  res_bind (optional_line r "Condition" "Condition" p2) (fun p3 =>
    Val (p3 +:+ schema_text)))))).

(** [row.get('Location', 'the region')], rendered. *)
Definition location_or_region (r : row) : string :=
  match r !! "Location" with
  | Some c => str_cell c
  | None => "the region"
  end.

Definition enhancement_prompt (initial_valuation : json) (r : row) : res string :=
  res_bind (row_getitem r "Unit #") (fun unit =>
  res_bind (row_getitem r "Description") (fun descr =>
    Val (String.concat nl [
           "";
           "    I have an initial valuation for this equipment:";
           "    " +:+ json_dumps_indent initial_valuation;
           "    ";
           "    Please provide a more detailed analysis for:";
           "    - Unit #: " +:+ str_cell unit;
           "    - Description: " +:+ str_cell descr;
           "    ";
           "    Focus on:";
           "    1. Regional market variations for " +:+ location_or_region r;
           "    2. Recent auction results";
           "    3. Maintenance history implications";
           "    4. Parts availability impact on value";
           "    5. Economic factors affecting this equipment category";
           "    ";
           "    Provide the enhanced analysis in the same JSON format as the initial valuation, ";
           "    but add an " +:+ quoted "enhanced_analysis"
             +:+ " field with the additional details.";
           "    "
         ]))).

(** *** Valuation client *)

(** [client.messages.create(...)]: one request to the service, logged. *)
Definition messages_create (rq : request) : M string :=
  fun w =>
    let w' := log (ECall rq) w in
    match service (calls_made (trace w)) rq with
    | inl msg => (Raise (ServiceError msg), w')
    | inr content => (Val content, w')
    end.

Definition valuation_request (prompt : string) : request :=
  {| req_model := "claude-3-opus-20240229";
     req_max_tokens := 4000;
     req_temperature := 0;
     req_system := "You are a heavy equipment valuation expert with access to web search. Provide structured JSON responses.";
     req_prompt := prompt |}.

Definition enhancement_request (prompt : string) : request :=
  {| req_model := "claude-3-opus-20240229";
     req_max_tokens := 4000;
     req_temperature := 1 # 10;
     req_system := "You are a heavy equipment valuation expert with access to web search. Provide enhanced analysis in the same JSON structure as the input, with an additional field for enhanced analysis.";
     req_prompt := prompt |}.

Definition max_retries : Z := 3.

Definition error_result (msg : string) : json :=
  JDict [("error", JStr msg)].

(** The [try] block of one attempt: request, parse, save, return. *)
Definition attempt_body (item_hash prompt : string) : M json :=
  let* content := messages_create (valuation_request prompt) in
  let* result := lift (parse_claude_response content) in
  save_to_cache item_hash result;;
  ret result.

(** [for attempt in range(max_retries)], the remaining values of [attempt]
    being [attempts].  Falling off the loop returns [None]. *)
Fixpoint retry_loop (item_hash prompt : string) (attempts : list Z)
    (retry_delay : Z) : M json :=
  match attempts with
  | [] => ret JNull
  | attempt :: rest =>
      try_except (attempt_body item_hash prompt) (fun e =>
        if attempt <? max_retries - 1
        then sleep (inject_Z retry_delay);;
             retry_loop item_hash prompt rest (retry_delay * 2)
        else ret (error_result (str_exn e)))
  end.

(** [range(n)]. *)
Definition range (n : Z) : list Z := map Z.of_nat (seq 0 (Z.to_nat n)).

Definition process_equipment_item (r : row) : M json :=
  let* item_hash := lift (get_equipment_hash r) in
  let* cached_result := get_cached_valuation item_hash in
  if truthy cached_result then ret cached_result
  else
    let* prompt := lift (valuation_prompt r) in
    retry_loop item_hash prompt (range max_retries) 2.

(** *** Batch driver *)

(** [df.head(n)]: the first [n] rows, or all but the last [-n] rows. *)
Definition df_head {A} (n : Z) (df : list A) : list A :=
  if 0 <=? n then firstn (Z.to_nat n) df
  else firstn (length df - Z.to_nat (- n)) df.

(** [df.head(max_items) if max_items else df]. *)
Definition select_rows {A} (max_items : option Z) (df : list A) : list A :=
  match max_items with
  | Some n => if n =? 0 then df else df_head n df
  | None => df
  end.

(** The loop over [process_df.iterrows()]. *)
Fixpoint process_rows (rows : list row) (results : list (cell * json))
  : M (list (cell * json)) :=
  match rows with
  | [] => ret results
  | r :: rest =>
      let* unit_id := lift (row_getitem r "Unit #") in
      let* result := process_equipment_item r in
      sleep (1 # 2);;
      process_rows rest (assoc_set unit_id result results)
  end.

Definition process_equipment_list (df : list row) (max_items : option Z)
  : M (list (cell * json)) :=
  process_rows (select_rows max_items df) [].

(** *** Enhancement *)

Definition enhance_failed : json :=
  JDict [("error", JStr "Failed to enhance valuation")].

Definition enhance_error (e : exn) (initial_valuation : json) : json :=
  JDict [("error", JStr (str_exn e)); ("original_valuation", initial_valuation)].

(** [enhanced["enhanced_analysis"] = enhanced.get("justification", "")]
    when the key is missing. *)
Definition ensure_enhanced_analysis (d : list (string * json))
  : list (string * json) :=
  if negb (dict_in "enhanced_analysis" d)
  then dict_set "enhanced_analysis" (get_or "justification" (JStr "") d) d
  else d.

Definition enhance_body (r : row) (prompt : string) : M json :=
  let* content := messages_create (enhancement_request prompt) in
  let* enhanced := lift (parse_claude_response content) in
  match enhanced with
  | JDict d =>
      if negb (truthy (get_or "error" JNull d))
      then
        let enhanced := JDict (ensure_enhanced_analysis d) in
        let* base := lift (get_equipment_hash r) in
        save_to_cache (base +:+ "_enhanced") enhanced;;
        ret enhanced
      else ret enhance_failed
  | _ => ret enhance_failed
  end.

Definition enhance_valuation (equipment_id : cell) (initial_valuation : json)
    (r : row) : M json :=
  let* prompt := lift (enhancement_prompt initial_valuation r) in
  try_except (enhance_body r prompt)
             (fun e => ret (enhance_error e initial_valuation)).

(** *** What each strategy of the parser yields on its own

    These functions name the outcome of a strategy, and of one attempt
    of the client, so that the statements about [parse_claude_response]
    and the retry loop can speak of a strategy or an attempt succeeding or
    failing. *)

(** The first strategy: the value of the fenced block, [None] when there
    is no block or the decoder rejects it with [JSONDecodeError]; any other
    exception of the decoder is raised. *)
Definition fenced_result (text : string) : res (option json) :=
  match re_search_json_block text with
  | Some block =>
      match json_loads block with
      | Val v => Val (Some v)
      | Raise JSONDecodeError => Val None
      | Raise e => Raise e
      end
  | None => Val None
  end.

(** The second strategy: the value of the text between the braces, [None]
    when the guard fails or the decoder raises anything. *)
Definition braces_result (text : string) : option json :=
  match brace_candidate text with
  | Some candidate =>
      match json_loads candidate with
      | Val v => Some v
      | Raise _ => None
      end
  | None => None
  end.

(** The value the parser settles on when it returns: first success wins,
    raw text last. *)
Definition parsed (text : string) : json :=
  match fenced_result text with
  | Val (Some v) => v
  | _ =>
      match braces_result text with
      | Some v => v
      | None => raw_response text
      end
  end.

(** The outcome of the [try] block of one attempt, for the [n]-th request
    of the run: the exception that ends it (raised by the request or by
    the parser), or the parsed response. *)
Definition attempt_outcome (n : nat) (rq : request) : exn + json :=
  match service n rq with
  | inl msg => inl (ServiceError msg)
  | inr content =>
      match parse_claude_response content with
      | Val v => inr v
      | Raise e => inl e
      end
  end.

(** The state a successful attempt leaves: the request logged, the result
    on disk. *)
Definition after_success (h p : string) (v : json) (w : world) : world :=
  set_disk (<[cache_path h := json_dumps v]> (disk w))
           (log (ECall (valuation_request p)) w).

(** One valuation per row, in order, each starting in the state the
    previous one left, with the half-second pause after it. *)
Inductive sequential_run : list row -> world -> list (cell * json) -> world -> Prop :=
| run_done (w : world) : sequential_run [] w [] w
| run_step (r : row) (rest : list row) (w w1 w' : world)
           (unit_id : cell) (result : json) (outs : list (cell * json)) :
    r !! "Unit #" = Some unit_id ->
    process_equipment_item r w = (Val result, w1) ->
    sequential_run rest (log (ESleep (1 # 2)) w1) outs w' ->
    sequential_run (r :: rest) w ((unit_id, result) :: outs) w'.

(** *** Writing the results of a batch ([batch_process.py], [main]) *)

(** [with open(path, 'w') as f: json.dump(v, f, indent=2)]. *)
Definition write_json (path : string) (v : json) : M unit :=
  fun w => (Val tt, set_disk (<[path := json_dumps_indent v]> (disk w)) w).

Definition item_path (output : string) (unit_id : cell) : string :=
  path_join output (safe_id unit_id +:+ ".json").

Definition combined_path (output : string) : string :=
  path_join output "combined_results.json".

(** The loop over [results.items()]: one file per unit id. *)
Fixpoint write_item_files (output : string) (results : list (cell * json)) : M unit :=
  match results with
  | [] => ret tt
  | (unit_id, result) :: rest =>
      write_json (item_path output unit_id) result;;
      write_item_files output rest
  end.

(** The results mapping as [json.dump] sees it. *)
Definition combined_json (results : list (cell * json)) : json :=
  JDict (map (fun kv => (json_key (fst kv), snd kv)) results).

(** The part of [main] that writes: the item files, then the combined file. *)
Definition write_results (output : string) (results : list (cell * json)) : M unit :=
  write_item_files output results;;
  write_json (combined_path output) (combined_json results).


(** The memo table holds each key once and at most [lru_maxsize] keys. *)
Definition memo_ok (m : list (string * json)) : Prop :=
  NoDup (map fst m) /\ (length m <= lru_maxsize)%nat.

(** No backtick occurs in the string. *)
Fixpoint no_backtick (s : string) : bool :=
  match s with
  | EmptyString => true
  | String c s' => negb (Ascii.eqb c "`"%char) && no_backtick s'
  end.

(** * Properties *)

(** ** Strings *)

Lemma append_nil_l (s : string) : "" +:+ s = s.
Proof. reflexivity. Qed.

Lemma append_cons (c : ascii) (a s : string) :
  String c a +:+ s = String c (a +:+ s).
Proof. reflexivity. Qed.

Lemma prefix_append (p s : string) : String.prefix p (p +:+ s) = true.
Proof.
  induction p as [|c p IH].
  - by destruct s.
  - rewrite append_cons. simpl.
    destruct (ascii_dec c c); [exact IH | congruence].
Qed.

Lemma substring_append_exact (b s : string) :
  String.substring 0 (String.length b) (b +:+ s) = b.
Proof.
  induction b as [|c b IH].
  - by destruct s.
  - rewrite append_cons. simpl. by rewrite IH.
Qed.

Lemma substring_append_skip (a s : string) (n m : nat) :
  String.substring (String.length a + n) m (a +:+ s) = String.substring n m s.
Proof.
  induction a as [|c a IH]; [done|].
  rewrite append_cons. simpl. exact IH.
Qed.

Lemma index_append_skip (a p s : string) (n : nat) :
  String.index (String.length a + n) p (a +:+ s)
  = match String.index n p s with
    | Some i => Some (String.length a + i)%nat
    | None => None
    end.
Proof.
  induction a as [|c a IH].
  - rewrite append_nil_l. simpl. by destruct (String.index n p s).
  - rewrite append_cons. simpl. rewrite IH. by destruct (String.index n p s).
Qed.

Lemma index_append_here (c : ascii) (p rest : string) :
  String.index 0 (String c p) (String c p +:+ rest) = Some 0%nat.
Proof.
  rewrite append_cons. cbn [String.index].
  rewrite <- append_cons. by rewrite prefix_append.
Qed.

(** The opening fence is first found right after a backtick-free prefix. *)
Lemma index_fence_open (pre rest : string) :
  no_backtick pre = true ->
  String.index 0 fence_open (pre +:+ fence_open +:+ rest) = Some (String.length pre).
Proof.
  induction pre as [|c pre IH]; intros Hpre.
  - rewrite append_nil_l. apply index_append_here.
  - simpl in Hpre. apply andb_prop in Hpre as [Hc Hpre].
    rewrite append_cons. cbn [String.index String.length].
    rewrite (IH Hpre).
    change fence_open with (String "`"%char ("``json" +:+ nl)).
    cbn [String.prefix].
    destruct (ascii_dec "`"%char c) as [<-|_]; [discriminate Hc | done].
Qed.

(** The closing fence is first found right after a backtick-free body. *)
Lemma index_fence_close (body rest : string) :
  no_backtick body = true ->
  String.index 0 fence_close (body +:+ fence_close +:+ rest) = Some (String.length body).
Proof.
  induction body as [|c body IH]; intros Hbody.
  - rewrite append_nil_l. apply index_append_here.
  - simpl in Hbody. apply andb_prop in Hbody as [Hc Hbody].
    rewrite append_cons. cbn [String.index String.length].
    rewrite (IH Hbody).
    replace (String.prefix fence_close (String c (body +:+ fence_close +:+ rest)))
      with false; [done|].
    change fence_close with (String (ascii_of_nat 10) "```").
    cbn [String.prefix].
    destruct (ascii_dec (ascii_of_nat 10) c) as [_|_]; [|done].
    destruct body as [|d body].
    + by rewrite append_nil_l.
    + simpl in Hbody. apply andb_prop in Hbody as [Hd _].
      rewrite append_cons. cbn [String.prefix].
      destruct (ascii_dec "`"%char d) as [<-|_]; [discriminate Hd | done].
Qed.

(** A text that carries a fenced block: the search finds its body. *)
Lemma re_search_json_block_fenced (pre body post : string) :
  no_backtick pre = true ->
  no_backtick body = true ->
  re_search_json_block (pre +:+ fence_open +:+ body +:+ fence_close +:+ post)
  = Some body.
Proof.
  intros Hpre Hbody. unfold re_search_json_block.
  rewrite (index_fence_open pre _ Hpre).
  rewrite index_append_skip.
  rewrite <- (Nat.add_0_r (String.length fence_open)) at 1.
  rewrite index_append_skip.
  rewrite (index_fence_close body post Hbody).
  replace (String.length pre + (String.length fence_open + String.length body)
           - (String.length pre + String.length fence_open))%nat
    with (String.length body) by lia.
  rewrite substring_append_skip.
  rewrite <- (Nat.add_0_r (String.length fence_open)).
  rewrite substring_append_skip.
  by rewrite substring_append_exact.
Qed.

(** ** Response parser *)

Lemma parse_braces_val (text : string) :
  parse_braces text
  = Val (match braces_result text with
         | Some v => v
         | None => raw_response text
         end).
Proof.
  unfold parse_braces, braces_result.
  destruct (brace_candidate text) as [candidate|]; [|done].
  by destruct (json_loads candidate).
Qed.

(** The parser as a choice between the outcomes of its strategies: it
    raises what the first strategy raises, and returns otherwise. *)
Lemma parse_claude_response_eq (text : string) :
  parse_claude_response text
  = match fenced_result text with
    | Val _ => Val (parsed text)
    | Raise e => Raise e
    end.
Proof.
  unfold parse_claude_response, parsed, fenced_result.
  destruct (re_search_json_block text) as [block|]; [|apply parse_braces_val].
  destruct (json_loads block) as [v|e]; [done|].
  destruct e; try done. apply parse_braces_val.
Qed.

(** What the parser returns, when it returns. *)
Lemma parse_claude_response_val_inv (text : string) (v : json) :
  parse_claude_response text = Val v -> v = parsed text.
Proof.
  rewrite parse_claude_response_eq.
  destruct (fenced_result text); congruence.
Qed.


(** The same for a text written out: a fenced block with a backtick-free
    body after a backtick-free prefix wins over anything that follows. *)
Corollary parse_fenced_text (pre body post : string) (v : json) :
  no_backtick pre = true ->
  no_backtick body = true ->
  json_loads body = Val v ->
  parse_claude_response
    (pre +:+ fence_open +:+ body +:+ fence_close +:+ post) = Val v.
Proof.
  intros Hpre Hbody Hv. unfold parse_claude_response.
  by rewrite (re_search_json_block_fenced pre body post Hpre Hbody), Hv.
Qed.

(** An exception of the decoder other than [JSONDecodeError], raised on
    the fenced block, leaves the parser: the [except] clause of the first
    strategy does not name it. *)
Lemma parse_raises_what_fenced_block_raises (text block : string) (e : exn) :
  re_search_json_block text = Some block ->
  json_loads block = Raise e ->
  e <> JSONDecodeError ->
  parse_claude_response text = Raise e.
Proof.
  intros Hblock He Hne. unfold parse_claude_response. rewrite Hblock, He.
  by destruct e.
Qed.

(** The parser returns whenever the decoder returns or raises
    [JSONDecodeError] on the fenced block, and whenever there is no block;
    with both strategies empty-handed it returns the raw text. *)
Lemma parse_returns_unless_fenced_block_raises (text : string) :
  (forall o, fenced_result text = Val o ->
             parse_claude_response text = Val (parsed text))
  /\ (fenced_result text = Val None ->
      braces_result text = None ->
      parse_claude_response text = Val (JDict [("raw_response", JStr text)])).
Proof.
  split.
  - intros o Ho. by rewrite parse_claude_response_eq, Ho.
  - intros Hf Hb. rewrite parse_claude_response_eq, Hf. unfold parsed.
    by rewrite Hf, Hb.
Qed.

(** The second strategy swallows every exception of the decoder. *)
Lemma parse_braces_returns (text : string) : exists v, parse_braces text = Val v.
Proof. eexists. apply parse_braces_val. Qed.

(** ** The log of external effects *)

Lemma calls_made_app (t1 t2 : list event) :
  calls_made (t1 ++ t2)%list = (calls_made t1 + calls_made t2)%nat.
Proof.
  induction t1 as [|[rq|q] t1 IH]; simpl; [done | by rewrite IH | done].
Qed.

Lemma sleeps_app (t1 t2 : list event) :
  sleeps (t1 ++ t2)%list = (sleeps t1 ++ sleeps t2)%list.
Proof.
  induction t1 as [|[rq|q] t1 IH]; simpl; [done | done | by rewrite IH].
Qed.

(** ** Fingerprint *)

(** The hashed string, by the columns the row has.  The test of a year or
    a condition is never completed: the column being there is enough for
    the [NameError]. *)
Lemma item_str_eq (r : row) :
  item_str r
  = match r !! "Unit #", r !! "Description" with
    | None, _ => Raise (KeyError "Unit #")
    | Some _, None => Raise (KeyError "Description")
    | Some unit, Some descr =>
        match r !! "Year", r !! "Condition" with
        | None, None => Val (str_cell unit +:+ "|" +:+ str_cell descr)
        | _, _ => Raise (NameError "pd")
        end
    end.
Proof.
  unfold item_str, row_getitem, add_if_present, unbound_pd_isna, res_bind.
  destruct (r !! "Unit #") as [unit|]; [|done].
  destruct (r !! "Description") as [descr|]; [|done].
  destruct (r !! "Year") as [y|]; [done|].
  by destruct (r !! "Condition") as [c|].
Qed.

Lemma item_str_val_inv (r : row) (s : string) :
  item_str r = Val s ->
  exists unit descr,
    r !! "Unit #" = Some unit /\ r !! "Description" = Some descr
    /\ r !! "Year" = None /\ r !! "Condition" = None
    /\ s = str_cell unit +:+ "|" +:+ str_cell descr.
Proof.
  rewrite item_str_eq.
  destruct (r !! "Unit #") as [unit|]; [|done].
  destruct (r !! "Description") as [descr|]; [|done].
  destruct (r !! "Year") as [y|]; [done|].
  destruct (r !! "Condition") as [c|]; [done|].
  intros [= <-]. by exists unit, descr.
Qed.

Lemma get_equipment_hash_val_inv (r : row) (h : string) :
  get_equipment_hash r = Val h ->
  exists unit descr,
    r !! "Unit #" = Some unit /\ r !! "Description" = Some descr
    /\ r !! "Year" = None /\ r !! "Condition" = None
    /\ h = md5_hexdigest (str_cell unit +:+ "|" +:+ str_cell descr).
Proof.
  unfold get_equipment_hash, res_bind.
  destruct (item_str r) as [s|e] eqn:Hs; [|done].
  intros [= <-].
  destruct (item_str_val_inv r s Hs) as (unit & descr & Hu & Hd & Hy & Hc & ->).
  by exists unit, descr.
Qed.

Lemma hashable_record_inv (r : row) :
  hashable_record r = true ->
  exists unit descr,
    r !! "Unit #" = Some unit /\ r !! "Description" = Some descr
    /\ r !! "Year" = None /\ r !! "Condition" = None.
Proof.
  unfold hashable_record, has_required_fields, lacks_column.
  destruct (r !! "Unit #") as [unit|]; [|done].
  destruct (r !! "Description") as [descr|]; [|done].
  destruct (r !! "Year") as [y|]; [done|].
  destruct (r !! "Condition") as [c|]; [done|].
  intros _. by exists unit, descr.
Qed.

(** The records that have a fingerprint are the records with the two
    required columns and neither a year nor a condition column. *)
Lemma get_equipment_hash_returns_iff (r : row) :
  (exists h, get_equipment_hash r = Val h) <-> hashable_record r = true.
Proof.
  split.
  - intros [h (unit & descr & Hu & Hd & Hy & Hc & _)%get_equipment_hash_val_inv].
    unfold hashable_record, has_required_fields, lacks_column.
    by rewrite Hu, Hd, Hy, Hc.
  - intros (unit & descr & Hu & Hd & Hy & Hc)%hashable_record_inv.
    unfold get_equipment_hash, res_bind. rewrite item_str_eq, Hu, Hd, Hy, Hc.
    by eexists.
Qed.

(** ** Dictionaries *)

Lemma dict_get_set_eq (k : string) (v : json) (d : list (string * json)) :
  dict_get k (dict_set k v d) = Some v.
Proof.
  induction d as [|[k' v'] d IH]; simpl.
  - by rewrite String.eqb_refl.
  - destruct (String.eqb k' k) eqn:E; simpl.
    + by rewrite String.eqb_refl.
    + by rewrite E.
Qed.

Lemma ensure_enhanced_analysis_in (d : list (string * json)) :
  dict_in "enhanced_analysis" (ensure_enhanced_analysis d) = true.
Proof.
  unfold ensure_enhanced_analysis.
  destruct (dict_in "enhanced_analysis" d) eqn:E; simpl; [done|].
  unfold dict_in. by rewrite dict_get_set_eq.
Qed.

Section AssocProperties.
Context {K V : Type} `{EqDecision K}.

Lemma assoc_set_keys (k k' : K) (v : V) (l : list (K * V)) :
  k ∈ map fst (assoc_set k' v l) <-> k = k' \/ k ∈ map fst l.
Proof.
  induction l as [|[k0 v0] l IH]; simpl.
  - rewrite elem_of_cons, elem_of_nil. tauto.
  - destruct (decide (k0 = k')) as [->|Hne]; simpl.
    + rewrite !elem_of_cons. tauto.
    + rewrite !elem_of_cons, IH. tauto.
Qed.

Lemma assoc_fold_keys (outs acc : list (K * V)) (k : K) :
  k ∈ map fst (fold_left (fun a o => assoc_set (fst o) (snd o) a) outs acc)
  <-> k ∈ map fst outs \/ k ∈ map fst acc.
Proof.
  revert acc. induction outs as [|[k0 v0] outs IH]; intros acc; simpl.
  - rewrite elem_of_nil. tauto.
  - rewrite IH, assoc_set_keys, elem_of_cons. tauto.
Qed.
End AssocProperties.

(** ** Cache and client *)

(** A lookup touches the memo table only. *)
Lemma get_cached_valuation_frame (h : string) (w w0 : world) (r : res json) :
  get_cached_valuation h w = (r, w0) ->
  trace w0 = trace w /\ disk w0 = disk w /\ exists v, r = Val v.
Proof.
  unfold get_cached_valuation.
  destruct (assoc_lookup h (memo w)); intros [= <- <-]; eauto.
Qed.

(** The prompt of a record that has a fingerprint: the test of a
    location column raises, and without the column the prompt is the
    opening followed by the schema. *)
Lemma valuation_prompt_hashed (r : row) (h : string) :
  get_equipment_hash r = Val h ->
  match r !! "Location" with
  | Some _ => valuation_prompt r = Raise (NameError "pd")
  | None => exists p, valuation_prompt r = Val p
  end.
Proof.
  intros (unit & descr & Hu & Hd & Hy & Hc & _)%get_equipment_hash_val_inv.
  unfold valuation_prompt, optional_line, add_if_present, unbound_pd_isna,
    row_getitem, res_bind.
  rewrite Hu, Hd, Hy, Hc.
  destruct (r !! "Location") as [l|]; [done | by eexists].
Qed.

Lemma attempt_body_eq (h p : string) (w : world) :
  attempt_body h p w
  = match attempt_outcome (calls_made (trace w)) (valuation_request p) with
    | inl e => (Raise e, log (ECall (valuation_request p)) w)
    | inr v => (Val v, after_success h p v w)
    end.
Proof.
  unfold attempt_body, attempt_outcome, bind, messages_create, lift, ret,
    save_to_cache, after_success.
  destruct (service _ _) as [msg|content]; [done|].
  by destruct (parse_claude_response content).
Qed.

(** A valuation, by what the lookup under the fingerprint returns. *)
Lemma process_equipment_item_eq (r : row) (w w0 : world) (h : string) (cached : json) :
  get_equipment_hash r = Val h ->
  get_cached_valuation h w = (Val cached, w0) ->
  process_equipment_item r w
  = if truthy cached then (Val cached, w0)
    else match valuation_prompt r with
         | Val p => retry_loop h p (range max_retries) 2 w0
         | Raise e => (Raise e, w0)
         end.
Proof.
  intros Hh Hlookup.
  unfold process_equipment_item, bind, lift, ret. rewrite Hh, Hlookup.
  destruct (truthy cached); [done|]. by destruct (valuation_prompt r).
Qed.

(** C2, as amended.  When the lookup under the record's fingerprint
    returns a truthy stored value, [process_equipment_item] returns that
    value at once: no request is sent, nothing is slept, and the disk is
    left as it was. *)
Theorem cache_hit_returns_without_call
    (r : row) (w w0 : world) (h : string) (v : json) :
  get_equipment_hash r = Val h ->
  get_cached_valuation h w = (Val v, w0) ->
  truthy v = true ->
  process_equipment_item r w = (Val v, w0)
  /\ trace w0 = trace w
  /\ disk w0 = disk w.
Proof.
  intros Hh Hlookup Hv.
  destruct (get_cached_valuation_frame _ _ _ _ Hlookup) as (Ht & Hd & _).
  split; [|done].
  unfold process_equipment_item, bind, lift, ret.
  by rewrite Hh, Hlookup, Hv.
Qed.

(** The three attempts of the loop, from a state [w]. *)
Lemma retry_three_attempts (h p : string) (w : world) :
  let rq := valuation_request p in
  let n := calls_made (trace w) in
  let w1 := log (ESleep 2) (log (ECall rq) w) in
  let w2 := log (ESleep 4) (log (ECall rq) w1) in
  retry_loop h p (range max_retries) 2 w
  = match attempt_outcome n rq with
    | inr v1 => (Val v1, after_success h p v1 w)
    | inl _ =>
        match attempt_outcome (S n) rq with
        | inr v2 => (Val v2, after_success h p v2 w1)
        | inl _ =>
            match attempt_outcome (S (S n)) rq with
            | inr v3 => (Val v3, after_success h p v3 w2)
            | inl e => (Val (error_result (str_exn e)), log (ECall rq) w2)
            end
        end
    end.
Proof.
  intros rq n w1 w2.
  change (range max_retries) with [0; 1; 2].
  assert (Hn1 : calls_made (trace w1) = S n).
  { subst w1 n. simpl. rewrite !calls_made_app. simpl. lia. }
  assert (Hn2 : calls_made (trace w2) = S (S n)).
  { subst w2 w1 n. simpl. rewrite !calls_made_app. simpl. lia. }
  cbn [retry_loop]. unfold try_except at 1. rewrite attempt_body_eq.
  fold n rq. destruct (attempt_outcome n rq) as [e1|v1]; [|done].
  change (0 <? max_retries - 1) with true. cbn iota.
  unfold bind at 1, sleep at 1.
  change (log (ESleep (inject_Z 2)) (log (ECall rq) w)) with w1.
  unfold try_except at 1. rewrite attempt_body_eq, Hn1.
  fold rq. destruct (attempt_outcome (S n) rq) as [e2|v2]; [|done].
  change (1 <? max_retries - 1) with true. cbn iota.
  unfold bind at 1, sleep at 1.
  change (log (ESleep (inject_Z (2 * 2))) (log (ECall rq) w1)) with w2.
  unfold try_except at 1. rewrite attempt_body_eq, Hn2.
  fold rq. destruct (attempt_outcome (S (S n)) rq) as [e3|v3]; [|done].
  reflexivity.
Qed.

(** C4.  On a cache miss the service is asked at most three times.  An
    attempt fails when its request raises or when parsing its response
    raises.  A failed first attempt is followed by a wait of 2, a failed
    second one by a wait of 4; a third failure returns the mapping of
    [error] to the message of the last exception at once, leaving the cache
    directory as it was; the first attempt that succeeds has its parsed
    response returned.  (A record with a location column does not get as
    far as the first request: building its prompt raises.) *)
Theorem retry_policy_on_miss
    (r : row) (w w0 : world) (h : string) (cached : json) :
  get_equipment_hash r = Val h ->
  get_cached_valuation h w = (Val cached, w0) ->
  truthy cached = false ->
  (calls_made (trace (snd (process_equipment_item r w)))
   <= calls_made (trace w) + 3)%nat
  /\ match r !! "Location" with
     | Some _ => process_equipment_item r w = (Raise (NameError "pd"), w0)
     | None =>
         exists p result w',
           valuation_prompt r = Val p
           /\ process_equipment_item r w = (Val result, w')
           /\ let rq := valuation_request p in
              let n := calls_made (trace w) in
              match attempt_outcome n rq, attempt_outcome (S n) rq,
                    attempt_outcome (S (S n)) rq with
              | inr v1, _, _ =>
                  result = v1
                  /\ trace w' = (trace w ++ [ECall rq])%list
              | inl _, inr v2, _ =>
                  result = v2
                  /\ trace w' = (trace w ++ [ECall rq; ESleep 2; ECall rq])%list
              | inl _, inl _, inr v3 =>
                  result = v3
                  /\ trace w'
                     = (trace w
                        ++ [ECall rq; ESleep 2; ECall rq; ESleep 4; ECall rq])%list
              | inl _, inl _, inl e =>
                  result = JDict [("error", JStr (str_exn e))]
                  /\ trace w'
                     = (trace w
                        ++ [ECall rq; ESleep 2; ECall rq; ESleep 4; ECall rq])%list
                  /\ disk w' = disk w
              end
     end.
Proof.
  intros Hh Hlookup Hmiss.
  destruct (get_cached_valuation_frame _ _ _ _ Hlookup) as (Ht & Hd & _).
  pose proof (valuation_prompt_hashed r h Hh) as Hprompt.
  rewrite (process_equipment_item_eq r w w0 h cached Hh Hlookup), Hmiss.
  destruct (r !! "Location") as [l|].
  { rewrite Hprompt. simpl. rewrite Ht. split; [lia | done]. }
  destruct Hprompt as [p Hp]. rewrite Hp, retry_three_attempts, Ht. cbv zeta.
  split.
  - destruct (attempt_outcome _ _) as [e1|v1];
      [destruct (attempt_outcome _ _) as [e2|v2];
       [destruct (attempt_outcome _ _) as [e3|v3]|]|];
      simpl; rewrite Ht, <- ?app_assoc, calls_made_app; simpl; lia.
  - exists p.
    destruct (attempt_outcome _ _) as [e1|v1];
      [destruct (attempt_outcome _ _) as [e2|v2];
       [destruct (attempt_outcome _ _) as [e3|v3]|]|];
      do 2 eexists; (split; [done|]); (split; [reflexivity|]);
      simpl; by rewrite Ht, ?Hd, <- ?app_assoc.
Qed.

(** *** Batch driver *)

Lemma process_rows_sequential (rows : list row) (acc results : list (cell * json))
    (w w' : world) :
  process_rows rows acc w
  = (Val results, w') ->
  exists outs,
    sequential_run rows w outs w'
    /\ results = fold_left (fun a o => assoc_set (fst o) (snd o) a) outs acc.
Proof.
  revert acc w. induction rows as [|r rows IH]; intros acc w.
  - intros [= <- <-]. exists []. split; [constructor | done].
  - cbn [process_rows]. unfold bind at 1, lift at 1, row_getitem.
    destruct (r !! "Unit #") as [unit_id|] eqn:Hu; [|done].
    unfold bind at 1.
    destruct (process_equipment_item r w) as [[result|e] w1] eqn:Hitem; [|done].
    unfold bind at 1, sleep at 1.
    intros (outs & Hrun & ->)%IH.
    exists ((unit_id, result) :: outs). split; [|done].
    by econstructor.
Qed.

Lemma sequential_run_unit_ids (rows : list row) (w w' : world)
    (outs : list (cell * json)) :
  sequential_run rows w outs w' ->
  map (fun r => r !! "Unit #") rows = map (fun o => Some (fst o)) outs.
Proof. induction 1; simpl; [done | by f_equal]. Qed.

Lemma has_required_fields_inv (r : row) :
  has_required_fields r = true ->
  exists unit descr, r !! "Unit #" = Some unit /\ r !! "Description" = Some descr.
Proof.
  unfold has_required_fields.
  destruct (r !! "Unit #") as [unit|]; [|done].
  destruct (r !! "Description") as [descr|]; [|done]. eauto.
Qed.

Lemma plain_record_inv (r : row) :
  plain_record r = true -> hashable_record r = true /\ r !! "Location" = None.
Proof.
  unfold plain_record, lacks_column. intros [Hh Hl]%andb_prop.
  split; [done|]. by destruct (r !! "Location").
Qed.

Lemma plain_record_required (r : row) :
  plain_record r = true -> has_required_fields r = true.
Proof.
  intros [Hh _]%plain_record_inv. unfold hashable_record in Hh.
  by apply andb_prop in Hh as [[Hr _]%andb_prop _].
Qed.

(** A record with the two required columns and none of the optional ones
    is always valued: the client returns a result, it does not raise. *)
Lemma process_equipment_item_returns (r : row) (w : world) :
  plain_record r = true ->
  exists result w', process_equipment_item r w = (Val result, w').
Proof.
  intros [Hhash Hloc]%plain_record_inv.
  destruct (proj2 (get_equipment_hash_returns_iff r) Hhash) as [h Hh].
  destruct (get_cached_valuation h w) as [cached w0] eqn:Hlookup.
  destruct (get_cached_valuation_frame _ _ _ _ Hlookup) as (_ & _ & v & ->).
  rewrite (process_equipment_item_eq r w w0 h v Hh Hlookup).
  destruct (truthy v); [by eauto|].
  pose proof (valuation_prompt_hashed r h Hh) as Hp. rewrite Hloc in Hp.
  destruct Hp as [p ->]. rewrite retry_three_attempts. cbv zeta.
  repeat destruct (attempt_outcome _ _); eauto.
Qed.

Lemma process_rows_returns (rows : list row) (acc : list (cell * json)) (w : world) :
  forallb plain_record rows = true ->
  exists results w', process_rows rows acc w = (Val results, w').
Proof.
  revert acc w. induction rows as [|r rows IH]; intros acc w Hrows.
  - by eexists _, _.
  - simpl in Hrows. apply andb_prop in Hrows as [Hr Hrows].
    destruct (has_required_fields_inv r (plain_record_required r Hr))
      as (unit & descr & Hu & _).
    destruct (process_equipment_item_returns r w Hr) as (result & w1 & Hitem).
    cbn [process_rows]. unfold bind at 1, lift at 1, row_getitem. rewrite Hu.
    unfold bind at 1. rewrite Hitem. unfold bind at 1, sleep at 1.
    apply (IH _ _ Hrows).
Qed.

Lemma forallb_firstn {A} (f : A -> bool) (n : nat) (l : list A) :
  forallb f l = true -> forallb f (firstn n l) = true.
Proof.
  revert n. induction l as [|x l IH]; intros [|n]; simpl; try done.
  intros [-> Hl]%andb_prop. by apply IH.
Qed.

(** C8, as amended.  For a positive limit, a mapping that
    [process_equipment_list] returns comes from running exactly the first
    [limit] records, in input order: one valuation per record, each begun
    in the state the previous one left, and its keys are exactly the unit
    ids of those records.  A mapping is returned whenever those records
    have the two required columns and none of the optional ones. *)
Theorem batch_processes_prefix (df : list row) (limit : Z) (w : world) :
  0 < limit ->
  (forall results w',
      process_equipment_list df (Some limit) w = (Val results, w') ->
      exists outs,
        sequential_run (firstn (Z.to_nat limit) df) w outs w'
        /\ map (fun r => r !! "Unit #") (firstn (Z.to_nat limit) df)
           = map (fun o => Some (fst o)) outs
        /\ results = fold_left (fun a o => assoc_set (fst o) (snd o) a) outs []
        /\ forall k, k ∈ map fst results <-> k ∈ map fst outs)
  /\ (forallb plain_record (firstn (Z.to_nat limit) df) = true ->
      exists results w',
        process_equipment_list df (Some limit) w = (Val results, w')).
Proof.
  intros Hpos. unfold process_equipment_list, select_rows, df_head.
  destruct (limit =? 0) eqn:E0; [lia|].
  destruct (0 <=? limit) eqn:E1; [|lia].
  split.
  - intros results w' Hrun.
    destruct (process_rows_sequential _ _ _ _ _ Hrun) as (outs & Hseq & ->).
    exists outs. split; [exact Hseq|].
    split; [by eapply sequential_run_unit_ids|]. split; [done|].
    intros k. rewrite assoc_fold_keys. simpl. rewrite elem_of_nil. tauto.
  - apply process_rows_returns.
Qed.

(** *** Enhancement *)

(** What [enhance_valuation] does once the prompt is built, by the answer
    of the service and the outcome of the parser.  Whatever is raised
    inside the [try] comes back as an error with the prior valuation. *)
Lemma enhance_valuation_eq (equipment_id : cell) (initial : json) (r : row)
    (p : string) (w : world) :
  enhancement_prompt initial r = Val p ->
  let rq := enhancement_request p in
  let w1 := log (ECall rq) w in
  enhance_valuation equipment_id initial r w
  = match service (calls_made (trace w)) rq with
    | inl msg => (Val (enhance_error (ServiceError msg) initial), w1)
    | inr content =>
        match parse_claude_response content with
        | Raise e => (Val (enhance_error e initial), w1)
        | Val (JDict d) =>
            if truthy (get_or "error" JNull d) then (Val enhance_failed, w1)
            else
              match get_equipment_hash r with
              | Val base =>
                  (Val (JDict (ensure_enhanced_analysis d)),
                   set_disk (<[cache_path (base +:+ "_enhanced")
                               := json_dumps (JDict (ensure_enhanced_analysis d))]>
                               (disk w1)) w1)
              | Raise e => (Val (enhance_error e initial), w1)
              end
        | Val _ => (Val enhance_failed, w1)
        end
    end.
Proof.
  intros Hp rq w1.
  unfold enhance_valuation, bind at 1, lift at 1. rewrite Hp.
  unfold try_except, enhance_body, bind at 1, messages_create.
  fold rq w1. destruct (service _ rq) as [msg|content]; [done|].
  unfold bind at 1, lift at 1.
  destruct (parse_claude_response content) as [[| | | |items|d]|e]; try done.
  destruct (truthy (get_or "error" JNull d)); [done|]. cbn [negb].
  unfold bind at 1, lift at 1.
  by destruct (get_equipment_hash r) as [base|e].
Qed.

(** C10.  A mapping returned by [enhance_valuation] that has no [error]
    key has an [enhanced_analysis] key.  It is the parsed response, with
    [enhanced_analysis] set to the response's [justification], or to the
    empty string when that is absent too, if the response lacked the key;
    and it is this completed mapping that is written to the cache. *)
Theorem enhanced_result_has_analysis
    (equipment_id : cell) (initial : json) (r : row) (w w' : world) (v : json) :
  enhance_valuation equipment_id initial r w = (Val v, w') ->
  has_key "error" v = false ->
  has_key "enhanced_analysis" v = true
  /\ exists p content d base,
       enhancement_prompt initial r = Val p
       /\ service (calls_made (trace w)) (enhancement_request p) = inr content
       /\ parsed content = JDict d
       /\ (dict_in "enhanced_analysis" d = true -> v = JDict d)
       /\ (dict_in "enhanced_analysis" d = false ->
           field "enhanced_analysis" v = Some (get_or "justification" (JStr "") d))
       /\ get_equipment_hash r = Val base
       /\ disk w' !! cache_path (base +:+ "_enhanced") = Some (json_dumps v).
Proof.
  intros Hrun Hne.
  destruct (enhancement_prompt initial r) as [p|e] eqn:Hp.
  2: { unfold enhance_valuation, bind, lift in Hrun. by rewrite Hp in Hrun. }
  rewrite (enhance_valuation_eq _ _ _ _ _ Hp) in Hrun. cbv zeta in Hrun.
  destruct (service _ _) as [msg|content] eqn:Hs.
  { injection Hrun as <- <-. discriminate Hne. }
  destruct (parse_claude_response content) as [[| | | |items|d]|e] eqn:Hd;
    try (injection Hrun as <- <-; discriminate Hne).
  apply parse_claude_response_val_inv in Hd. symmetry in Hd.
  destruct (truthy (get_or "error" JNull d)).
  { injection Hrun as <- <-. discriminate Hne. }
  destruct (get_equipment_hash r) as [base|e] eqn:Hh.
  2: { injection Hrun as <- <-. discriminate Hne. }
  injection Hrun as <- <-.
  split; [apply ensure_enhanced_analysis_in|].
  exists p, content, d, base. repeat split; try done.
  - intros Hin. unfold ensure_enhanced_analysis. by rewrite Hin.
  - intros Hin. unfold ensure_enhanced_analysis. rewrite Hin. simpl.
    apply dict_get_set_eq.
  - simpl. apply lookup_insert_eq.
Qed.

(** A request that raises: the error comes with the prior valuation. *)
Lemma enhance_exception_keeps_original (equipment_id : cell) (initial : json)
    (r : row) (p msg : string) (w : world) :
  enhancement_prompt initial r = Val p ->
  service (calls_made (trace w)) (enhancement_request p) = inl msg ->
  fst (enhance_valuation equipment_id initial r w)
  = Val (JDict [("error", JStr msg); ("original_valuation", initial)]).
Proof.
  intros Hp Hs. rewrite (enhance_valuation_eq _ _ _ _ _ Hp). cbv zeta.
  by rewrite Hs.
Qed.

(** A response that parses to something other than a mapping, or to a
    mapping with a truthy [error]: the error comes alone. *)
Lemma enhance_unusable_parse_drops_original (equipment_id : cell)
    (initial : json) (r : row) (p content : string) (v : json) (w : world) :
  enhancement_prompt initial r = Val p ->
  service (calls_made (trace w)) (enhancement_request p) = inr content ->
  parse_claude_response content = Val v ->
  match v with
  | JDict d => truthy (get_or "error" JNull d) = true
  | _ => True
  end ->
  fst (enhance_valuation equipment_id initial r w)
  = Val (JDict [("error", JStr "Failed to enhance valuation")]).
Proof.
  intros Hp Hs Hv Hbad. rewrite (enhance_valuation_eq _ _ _ _ _ Hp). cbv zeta.
  rewrite Hs, Hv.
  destruct v as [| | | |items|d]; try done.
  by rewrite Hbad.
Qed.

(** ** Fingerprint determinism *)

Lemma append_assoc (a b c : string) : (a +:+ b) +:+ c = a +:+ (b +:+ c).
Proof.
  induction a as [|x a IH]; [done|].
  rewrite !append_cons. by rewrite IH.
Qed.


(** The hashed string depends on the four columns only. *)
Lemma item_str_ext (a b : row) :
  a !! "Unit #" = b !! "Unit #" ->
  a !! "Description" = b !! "Description" ->
  a !! "Year" = b !! "Year" ->
  a !! "Condition" = b !! "Condition" ->
  item_str a = item_str b.
Proof. intros Hu Hd Hy Hc. by rewrite !item_str_eq, Hu, Hd, Hy, Hc. Qed.




(** ** Round trip through the cache *)

(** A lookup leaves its answer in the memo table. *)
Lemma get_cached_valuation_memoizes (h : string) (w w1 : world) (v : json) :
  get_cached_valuation h w = (Val v, w1) ->
  assoc_lookup h (memo w1) = Some v.
Proof.
  unfold get_cached_valuation.
  destruct (assoc_lookup h (memo w)) as [v0|]; intros [= <- <-]; simpl;
    by destruct (decide (h = h)).
Qed.

(** Stored behind a memoized key, a result is not what the next lookup
    returns: the lookup answers from the table. *)
Lemma lookup_after_store_memoized (h : string) (r v : json) (w : world) :
  assoc_lookup h (memo w) = Some v ->
  fst (get_cached_valuation h (snd (save_to_cache h r w))) = Val v.
Proof.
  intros Hm. unfold get_cached_valuation, save_to_cache. simpl. by rewrite Hm.
Qed.

(** X23.  Stored behind a key the table does not hold, a result that
    survives encoding and decoding is what the next lookup returns. *)
Lemma lookup_after_store_fresh (h : string) (r : json) (w : world) :
  assoc_lookup h (memo w) = None ->
  json_loads (json_dumps r) = Val r ->
  fst (get_cached_valuation h (snd (save_to_cache h r w))) = Val r.
Proof.
  intros Hm Hr. unfold get_cached_valuation, save_to_cache. simpl.
  rewrite Hm. simpl. unfold read_cache.
  by rewrite lookup_insert_eq, Hr.
Qed.

(** ** More on the client: what a valuation touches *)


(** What the retry loop does to a state, whatever the service answers:
    it returns, having touched neither the memo table nor, unless an
    attempt succeeded, the cache directory. *)
Lemma retry_loop_effects (h p : string) (w : world) :
  exists result w' new,
    retry_loop h p (range max_retries) 2 w = (Val result, w')
    /\ memo w' = memo w
    /\ trace w' = (trace w ++ new)%list
    /\ (calls_made new <= 3)%nat
    /\ pauses new = 0%nat
    /\ ((disk w' = disk w
         /\ exists e1 e2 e3,
              attempt_outcome (calls_made (trace w)) (valuation_request p) = inl e1
              /\ attempt_outcome (S (calls_made (trace w))) (valuation_request p)
                 = inl e2
              /\ attempt_outcome (S (S (calls_made (trace w)))) (valuation_request p)
                 = inl e3
              /\ result = error_result (str_exn e3))
        \/ (disk w' = <[cache_path h := json_dumps result]> (disk w)
            /\ exists k, (k <= 2)%nat
                 /\ attempt_outcome (k + calls_made (trace w)) (valuation_request p)
                    = inr result)).
Proof.
  rewrite retry_three_attempts. cbv zeta.
  set (rq := valuation_request p). set (n := calls_made (trace w)).
  destruct (attempt_outcome n rq) as [e1|v1] eqn:E1;
    [destruct (attempt_outcome (S n) rq) as [e2|v2] eqn:E2;
     [destruct (attempt_outcome (S (S n)) rq) as [e3|v3] eqn:E3|]|].
  - exists (error_result (str_exn e3)),
      (log (ECall rq) (log (ESleep 4) (log (ECall rq)
         (log (ESleep 2) (log (ECall rq) w))))),
      [ECall rq; ESleep 2; ECall rq; ESleep 4; ECall rq].
    split; [reflexivity|]. split; [reflexivity|].
    split; [by simpl; rewrite <- !app_assoc|].
    split; [simpl; lia|]. split; [reflexivity|].
    left. split; [reflexivity|]. by exists e1, e2, e3.
  - eexists v3, _, [ECall rq; ESleep 2; ECall rq; ESleep 4; ECall rq].
    split; [reflexivity|]. split; [reflexivity|].
    split; [by simpl; rewrite <- !app_assoc|].
    split; [simpl; lia|]. split; [reflexivity|].
    right. split; [reflexivity|]. exists 2%nat. split; [lia | exact E3].
  - eexists v2, _, [ECall rq; ESleep 2; ECall rq].
    split; [reflexivity|]. split; [reflexivity|].
    split; [by simpl; rewrite <- !app_assoc|].
    split; [simpl; lia|]. split; [reflexivity|].
    right. split; [reflexivity|]. exists 1%nat. split; [lia | exact E2].
  - eexists v1, _, [ECall rq].
    split; [reflexivity|]. split; [reflexivity|].
    split; [reflexivity|].
    split; [simpl; lia|]. split; [reflexivity|].
    right. split; [reflexivity|]. exists 0%nat. split; [lia | exact E1].
Qed.


(** Without a required column the lookup of that column raises, before
    anything else is done. *)
Lemma process_equipment_item_incomplete (r : row) (w : world) :
  has_required_fields r = false ->
  exists k,
    (k = "Unit #" \/ k = "Description")
    /\ r !! k = None
    /\ process_equipment_item r w = (Raise (KeyError k), w).
Proof.
  unfold has_required_fields, process_equipment_item, get_equipment_hash,
    bind, lift. rewrite item_str_eq. unfold res_bind.
  destruct (r !! "Unit #") as [unit|] eqn:Hu.
  - destruct (r !! "Description") as [descr|] eqn:Hd; [done|].
    intros _. exists "Description". by eauto.
  - intros _. exists "Unit #". by eauto.
Qed.

(** X1.  A record without its unit id or without its description is not
    valued: [process_equipment_item] raises the [KeyError] of the missing
    column before anything happens: no lookup, no request, no write. *)
Theorem incomplete_record_raises_untouched (r : row) (w : world) :
  has_required_fields r = false ->
  exists k,
    (k = "Unit #" \/ k = "Description")
    /\ r !! k = None
    /\ process_equipment_item r w = (Raise (KeyError k), w).
Proof. apply process_equipment_item_incomplete. Qed.

(** ** The memo table *)

Lemma assoc_remove_keys {V} (k k' : string) (m : list (string * V)) :
  k ∈ map fst (assoc_remove k' m) <-> k <> k' /\ k ∈ map fst m.
Proof.
  clear md5_hexdigest json_dumps json_dumps_indent json_loads service.
  induction m as [|[k0 v0] m IH]; simpl.
  - rewrite elem_of_nil. tauto.
  - destruct (decide (k0 = k')) as [->|Hne]; simpl.
    + rewrite IH, elem_of_cons. intuition congruence.
    + rewrite !elem_of_cons, IH. intuition congruence.
Qed.

Lemma assoc_remove_NoDup {V} (k : string) (m : list (string * V)) :
  NoDup (map fst m) -> NoDup (map fst (assoc_remove k m)).
Proof.
  clear md5_hexdigest json_dumps json_dumps_indent json_loads service.
  induction m as [|[k0 v0] m IH]; simpl; [done|].
  intros [Hk0 Hm]%NoDup_cons.
  destruct (decide (k0 = k)); [by apply IH|]. simpl.
  apply NoDup_cons. split; [|by apply IH].
  rewrite assoc_remove_keys. tauto.
Qed.

Lemma assoc_remove_length {V} (k : string) (m : list (string * V)) (v : V) :
  assoc_lookup k m = Some v ->
  (length (assoc_remove k m) < length m)%nat.
Proof.
  induction m as [|[k0 v0] m IH]; simpl; [done|].
  destruct (decide (k0 = k)) as [->|Hne].
  - intros _. clear IH. induction m as [|[k1 v1] m IHm]; simpl; [lia|].
    destruct (decide (k1 = k)); simpl; lia.
  - intros Hl. simpl. specialize (IH Hl). lia.
Qed.

Lemma assoc_lookup_None_keys {V} (k : string) (m : list (string * V)) :
  assoc_lookup k m = None -> k ∉ map fst m.
Proof.
  induction m as [|[k0 v0] m IH]; simpl.
  - intros _. apply not_elem_of_nil.
  - destruct (decide (k0 = k)) as [->|Hne]; [done|].
    intros Hl. rewrite elem_of_cons. intros [->|Hin]; [done|]. by apply IH.
Qed.

(** A lookup keeps the memo table well formed. *)
Lemma get_cached_valuation_memo_ok (h : string) (w : world) :
  memo_ok (memo w) ->
  memo_ok (memo (snd (get_cached_valuation h w))).
Proof.
  clear md5_hexdigest json_dumps json_dumps_indent service.
  intros [Hnd Hlen]. unfold get_cached_valuation, memo_ok.
  destruct (assoc_lookup h (memo w)) as [v|] eqn:Hl; cbn [snd memo set_memo].
  - split.
    + cbn [map fst]. apply NoDup_cons. split; [|by apply assoc_remove_NoDup].
      rewrite assoc_remove_keys. tauto.
    + cbn [length]. pose proof (assoc_remove_length h (memo w) v Hl). lia.
  - set (m := (h, read_cache h (disk w)) :: memo w). split.
    + change (map fst (take lru_maxsize m)) with (fst <$> take lru_maxsize m).
      rewrite fmap_take. eapply sublist_NoDup; [|apply sublist_take].
      subst m. cbn [fmap list_fmap fst]. apply NoDup_cons.
      split; [by apply assoc_lookup_None_keys | done].
    + apply firstn_le_length.
Qed.

(** X2.  The [lru_cache] table stays well formed through a valuation: each
    fingerprint is remembered at most once and never more than 1000 of them,
    whether the valuation hits, fetches, fails or raises. *)
Theorem memo_stays_well_formed (r : row) (w : world) :
  memo_ok (memo w) ->
  memo_ok (memo (snd (process_equipment_item r w))).
Proof.
  clear json_dumps_indent.
  intros Hok.
  destruct (get_equipment_hash r) as [h|e] eqn:Hh.
  2: { unfold process_equipment_item, bind, lift. by rewrite Hh. }
  pose proof (get_cached_valuation_memo_ok h w Hok) as Hok0.
  destruct (get_cached_valuation h w) as [cached w0] eqn:Hlookup.
  destruct (get_cached_valuation_frame _ _ _ _ Hlookup) as (_ & _ & v & ->).
  rewrite (process_equipment_item_eq r w w0 h v Hh Hlookup).
  destruct (truthy v); [exact Hok0|].
  destruct (valuation_prompt r) as [p|e]; [|exact Hok0].
  destruct (retry_loop_effects h p w0) as (result & w' & new & -> & Hm & _).
  simpl in *. by rewrite Hm.
Qed.

(** ** The cache directory through a valuation *)

(** X3.  A valuation writes no cache file but the one of the record's own
    fingerprint: every other file of the directory is as it was, whether
    the valuation hits, fetches, fails or raises. *)
Theorem valuation_writes_only_own_entry (r : row) (w : world) (path : string) :
  (forall h, get_equipment_hash r = Val h -> path <> cache_path h) ->
  disk (snd (process_equipment_item r w)) !! path = disk w !! path.
Proof.
  intros Hpath.
  destruct (get_equipment_hash r) as [h|e] eqn:Hh.
  2: { unfold process_equipment_item, bind, lift. by rewrite Hh. }
  destruct (get_cached_valuation h w) as [cached w0] eqn:Hlookup.
  destruct (get_cached_valuation_frame _ _ _ _ Hlookup) as (_ & Hd & v & ->).
  rewrite (process_equipment_item_eq r w w0 h v Hh Hlookup).
  destruct (truthy v); [by simpl; rewrite Hd|].
  destruct (valuation_prompt r) as [p|e]; [|by simpl; rewrite Hd].
  destruct (retry_loop_effects h p w0)
    as (result & w' & new & -> & _ & _ & _ & _ & [[Hsame _]|[Hput _]]); simpl.
  - by rewrite Hsame, Hd.
  - rewrite Hput, Hd. apply lookup_insert_ne. intros Heq.
    by apply (Hpath h).
Qed.

(** X4.  On a miss, for a record without a location column, the
    valuation returns, and a result parsed from a response of the service
    is on disk when it does: the cache directory is the earlier one with
    the dump of the returned result under the fingerprint.  Only when all
    three attempts fail, the request or the parser raising in each, is the
    directory left as it was and the message of the last exception
    returned under [error]. *)
Theorem fetched_result_is_stored
    (r : row) (w w0 : world) (h : string) (cached : json) :
  get_equipment_hash r = Val h ->
  get_cached_valuation h w = (Val cached, w0) ->
  truthy cached = false ->
  r !! "Location" = None ->
  exists p result w',
    valuation_prompt r = Val p
    /\ process_equipment_item r w = (Val result, w')
    /\ ((disk w' = disk w
         /\ exists e1 e2 e3,
              attempt_outcome (calls_made (trace w)) (valuation_request p) = inl e1
              /\ attempt_outcome (S (calls_made (trace w))) (valuation_request p)
                 = inl e2
              /\ attempt_outcome (S (S (calls_made (trace w)))) (valuation_request p)
                 = inl e3
              /\ result = JDict [("error", JStr (str_exn e3))])
        \/ (disk w' = <[cache_path h := json_dumps result]> (disk w)
            /\ exists k, (k <= 2)%nat
                 /\ attempt_outcome (k + calls_made (trace w)) (valuation_request p)
                    = inr result)).
Proof.
  intros Hh Hlookup Hmiss Hloc.
  destruct (get_cached_valuation_frame _ _ _ _ Hlookup) as (Ht & Hd & _).
  pose proof (valuation_prompt_hashed r h Hh) as Hp. rewrite Hloc in Hp.
  destruct Hp as [p Hp].
  rewrite (process_equipment_item_eq r w w0 h cached Hh Hlookup), Hmiss, Hp.
  destruct (retry_loop_effects h p w0)
    as (result & w' & new & Hrun & _ & _ & _ & _ & Hdisk).
  exists p, result, w'. split; [done|]. split; [done|].
  rewrite Ht, Hd in Hdisk. exact Hdisk.
Qed.

(** X5.  A cache file that does not deserialize, whatever the decoder
    raises on it, counts as no file: the valuation returns the same result
    and sends the same requests, with the same waits, as it does when the
    file is not there. *)
Theorem corrupt_entry_is_a_miss
    (r : row) (w : world) (h contents : string) (e : exn) :
  get_equipment_hash r = Val h ->
  json_loads contents = Raise e ->
  let corrupt := set_disk (<[cache_path h := contents]> (disk w)) w in
  let absent := set_disk (delete (cache_path h) (disk w)) w in
  fst (process_equipment_item r corrupt) = fst (process_equipment_item r absent)
  /\ trace (snd (process_equipment_item r corrupt))
     = trace (snd (process_equipment_item r absent)).
Proof.
  intros Hh Hbad corrupt absent.
  assert (Hsame : exists v m,
             get_cached_valuation h corrupt = (Val v, set_memo m corrupt)
             /\ get_cached_valuation h absent = (Val v, set_memo m absent)).
  { unfold get_cached_valuation. subst corrupt absent. simpl.
    destruct (assoc_lookup h (memo w)) as [v|]; [by eauto|].
    unfold read_cache.
    rewrite lookup_insert_eq, lookup_delete_eq, Hbad. by eauto. }
  destruct Hsame as (v & m & Hc & Ha).
  rewrite (process_equipment_item_eq r _ _ h v Hh Hc).
  rewrite (process_equipment_item_eq r _ _ h v Hh Ha).
  destruct (truthy v); [done|].
  destruct (valuation_prompt r) as [p|e']; [|done].
  rewrite !retry_three_attempts. cbv zeta. simpl.
  destruct (attempt_outcome _ _); [|done].
  destruct (attempt_outcome _ _); [|done].
  by destruct (attempt_outcome _ _).
Qed.

(** X6.  A result stored under the record's fingerprint is a hit in a new
    process: when it is truthy and survives encoding and decoding, the
    valuation returns it, sends no request and leaves the directory alone. *)
Theorem stored_result_is_hit_in_new_process
    (r : row) (h : string) (v : json) (d : gmap string string) :
  get_equipment_hash r = Val h ->
  d !! cache_path h = Some (json_dumps v) ->
  json_loads (json_dumps v) = Val v ->
  truthy v = true ->
  process_equipment_item r (World d [] []) = (Val v, World d [(h, v)] []).
Proof.
  intros Hh Hd Hv Ht.
  assert (Hlookup : get_cached_valuation h (World d [] [])
                    = (Val v, World d [(h, v)] [])).
  { unfold get_cached_valuation, read_cache. simpl.
    by rewrite Hd, Hv. }
  rewrite (process_equipment_item_eq r _ _ h v Hh Hlookup).
  by rewrite Ht.
Qed.

(** ** Enhancement: what it touches *)

Lemma length_append (a b : string) :
  String.length (a +:+ b) = (String.length a + String.length b)%nat.
Proof.
  induction a as [|c a IH]; [done|].
  rewrite append_cons. simpl. by rewrite IH.
Qed.

Lemma append_cancel_l (a x y : string) : a +:+ x = a +:+ y -> x = y.
Proof.
  induction a as [|c a IH]; [done|].
  rewrite !append_cons. intros [= H]. by apply IH.
Qed.

Lemma append_cancel_r (x y z : string) : x +:+ z = y +:+ z -> x = y.
Proof.
  revert y. induction x as [|c x IH]; intros [|c' y] H.
  - done.
  - apply (f_equal String.length) in H.
    rewrite append_nil_l, append_cons, ?length_append in H.
    simpl in H. rewrite length_append in H. lia.
  - apply (f_equal String.length) in H.
    rewrite append_nil_l, append_cons in H.
    simpl in H. rewrite length_append in H. lia.
  - rewrite !append_cons in H. injection H as -> H. f_equal. by apply IH.
Qed.

Lemma cache_path_inj (a b : string) : cache_path a = cache_path b -> a = b.
Proof.
  unfold cache_path. intros H%append_cancel_l. by apply append_cancel_r in H.
Qed.

Lemma enhanced_key_differs (h : string) : h +:+ "_enhanced" <> h.
Proof.
  intros H%(f_equal String.length). rewrite length_append in H.
  simpl in H. lia.
Qed.

(** X7.  An enhancement never touches the record's base cache entry: the
    file under the fingerprint is after [enhance_valuation] what it was
    before, and so is every file but the one under the fingerprint with
    [_enhanced] appended. *)
Theorem enhancement_keeps_base_entry
    (equipment_id : cell) (initial : json) (r : row) (w : world) (h : string) :
  get_equipment_hash r = Val h ->
  let w' := snd (enhance_valuation equipment_id initial r w) in
  disk w' !! cache_path h = disk w !! cache_path h
  /\ forall path, path <> cache_path (h +:+ "_enhanced") ->
                  disk w' !! path = disk w !! path.
Proof.
  intros Hh w'.
  assert (Hother : forall path, path <> cache_path (h +:+ "_enhanced") ->
                                disk w' !! path = disk w !! path).
  { intros path Hpath. subst w'.
    destruct (enhancement_prompt initial r) as [p|e] eqn:Hp.
    2: { unfold enhance_valuation, bind, lift. by rewrite Hp. }
    rewrite (enhance_valuation_eq _ _ _ _ _ Hp). cbv zeta. rewrite Hh.
    destruct (service _ _) as [msg|content]; [done|].
    destruct (parse_claude_response content) as [[| | | |items|d]|e]; try done.
    destruct (truthy (get_or "error" JNull d)); [done|].
    simpl. by apply lookup_insert_ne. }
  split; [|exact Hother].
  apply Hother. intros H%cache_path_inj. by apply (enhanced_key_differs h).
Qed.

(** X8.  An enhancement sends exactly one request, whatever comes back: it
    does not look the cache up (the memo table is untouched), does not wait
    and does not retry. *)
Theorem enhancement_is_one_request
    (equipment_id : cell) (initial : json) (r : row) (w : world) (p : string) :
  enhancement_prompt initial r = Val p ->
  let w' := snd (enhance_valuation equipment_id initial r w) in
  trace w' = (trace w ++ [ECall (enhancement_request p)])%list
  /\ memo w' = memo w.
Proof.
  intros Hp w'. subst w'.
  rewrite (enhance_valuation_eq _ _ _ _ _ Hp). cbv zeta.
  destruct (service _ _) as [msg|content]; [done|].
  destruct (parse_claude_response content) as [[| | | |items|d]|e]; try done.
  destruct (truthy (get_or "error" JNull d)); [done|].
  by destruct (get_equipment_hash r).
Qed.

(** X9.  A response with nothing to deserialize (no fenced block, or one
    the decoder rejects with [JSONDecodeError], and nothing between braces
    that deserializes) is not a failure of the enhancement: the raw text
    comes back with an empty [enhanced_analysis] added, and that mapping is
    written to the cache under the suffixed fingerprint. *)
Theorem enhancement_accepts_raw_response
    (equipment_id : cell) (initial : json) (r : row) (w : world)
    (p content h : string) :
  enhancement_prompt initial r = Val p ->
  service (calls_made (trace w)) (enhancement_request p) = inr content ->
  fenced_result content = Val None ->
  braces_result content = None ->
  get_equipment_hash r = Val h ->
  let v := JDict [("raw_response", JStr content); ("enhanced_analysis", JStr "")] in
  fst (enhance_valuation equipment_id initial r w) = Val v
  /\ disk (snd (enhance_valuation equipment_id initial r w))
       !! cache_path (h +:+ "_enhanced") = Some (json_dumps v).
Proof.
  intros Hp Hs Hf Hb Hh v.
  rewrite (enhance_valuation_eq _ _ _ _ _ Hp). cbv zeta. rewrite Hs.
  rewrite (proj2 (parse_returns_unless_fenced_block_raises content) Hf Hb).
  simpl. rewrite Hh. simpl.
  split; [done|]. apply lookup_insert_eq.
Qed.

(** ** The batch: pauses, requests, incomplete records, repeated ids *)

Section AssocLookup.
Context {K V : Type} `{EqDecision K}.

Lemma assoc_lookup_set (k k' : K) (v : V) (l : list (K * V)) :
  assoc_lookup k (assoc_set k' v l)
  = if decide (k' = k) then Some v else assoc_lookup k l.
Proof.
  induction l as [|[k0 v0] l IH]; simpl.
  - by destruct (decide (k' = k)).
  - destruct (decide (k0 = k')) as [->|Hne]; simpl.
    + by destruct (decide (k' = k)).
    + destruct (decide (k0 = k)) as [->|Hne']; [|exact IH].
      by destruct (decide (k' = k)) as [->|].
Qed.

Lemma assoc_lookup_app (k : K) (l1 l2 : list (K * V)) :
  assoc_lookup k (l1 ++ l2)
  = match assoc_lookup k l1 with
    | Some v => Some v
    | None => assoc_lookup k l2
    end.
Proof.
  induction l1 as [|[k0 v0] l1 IH]; simpl; [done|].
  by destruct (decide (k0 = k)).
Qed.

(** After a run of [d[k] = v] the entry of a key is the last one set. *)
Lemma assoc_fold_lookup (outs acc : list (K * V)) (k : K) :
  assoc_lookup k (fold_left (fun a o => assoc_set (fst o) (snd o) a) outs acc)
  = match assoc_lookup k (rev outs) with
    | Some v => Some v
    | None => assoc_lookup k acc
    end.
Proof.
  revert acc. induction outs as [|[k0 v0] outs IH]; intros acc; simpl; [done|].
  rewrite IH, assoc_lookup_app, assoc_lookup_set. simpl.
  destruct (assoc_lookup k (rev outs)); [done|].
  by destruct (decide (k0 = k)).
Qed.

Lemma assoc_set_NoDup (k : K) (v : V) (l : list (K * V)) :
  NoDup (map fst l) -> NoDup (map fst (assoc_set k v l)).
Proof.
  induction l as [|[k0 v0] l IH]; simpl.
  - intros _. apply NoDup_singleton.
  - intros [Hk0 Hl]%NoDup_cons.
    destruct (decide (k0 = k)) as [->|Hne]; simpl.
    + by apply NoDup_cons.
    + apply NoDup_cons. split; [|by apply IH].
      rewrite assoc_set_keys. intros [->|Hin]; done.
Qed.

Lemma assoc_fold_NoDup (outs acc : list (K * V)) :
  NoDup (map fst acc) ->
  NoDup (map fst (fold_left (fun a o => assoc_set (fst o) (snd o) a) outs acc)).
Proof.
  revert acc. induction outs as [|[k0 v0] outs IH]; intros acc Hacc; simpl;
    [done|].
  apply IH. by apply assoc_set_NoDup.
Qed.
End AssocLookup.







(** X12.  A mapping that a batch returns has every unit id once, and
    under an id that several records share it has the result of the last
    of them in input order.  (A batch over records with the two required
    columns and none of the optional ones does return one.) *)
Theorem batch_keeps_last_result_per_id
    (df : list row) (max_items : option Z) (w : world) :
  (forall results w',
      process_equipment_list df max_items w = (Val results, w') ->
      exists outs,
        sequential_run (select_rows max_items df) w outs w'
        /\ NoDup (map fst results)
        /\ forall unit_id,
             assoc_lookup unit_id results = assoc_lookup unit_id (rev outs))
  /\ (forallb plain_record (select_rows max_items df) = true ->
      exists results w',
        process_equipment_list df max_items w = (Val results, w')).
Proof.
  unfold process_equipment_list. split.
  - intros results w' Hrun.
    destruct (process_rows_sequential _ _ _ _ _ Hrun) as (outs & Hseq & ->).
    exists outs. split; [exact Hseq|].
    split; [apply assoc_fold_NoDup; constructor|].
    intros unit_id. rewrite assoc_fold_lookup.
    by destruct (assoc_lookup unit_id (rev outs)).
  - apply process_rows_returns.
Qed.

(** ** The parser on an object inside prose *)

Lemma index_first_char (c : ascii) (pre rest : string) :
  lacks c pre = true ->
  String.index 0 (String c "") (pre +:+ String c rest) = Some (String.length pre).
Proof.
  induction pre as [|a pre IH]; intros Hpre.
  - rewrite append_nil_l. apply (index_append_here c "" rest).
  - simpl in Hpre. apply andb_prop in Hpre as [Ha Hpre].
    rewrite append_cons. cbn [String.index String.length].
    rewrite (IH Hpre). cbn [String.prefix].
    destruct (ascii_dec c a) as [<-|_]; [|done].
    by rewrite Ascii.eqb_refl in Ha.
Qed.

Lemma rindex_lacks (c : ascii) (s : string) :
  lacks c s = true -> rindex (String c "") s = None.
Proof.
  induction s as [|a s IH]; [done|].
  simpl. intros [Ha Hs]%andb_prop. rewrite (IH Hs).
  destruct (ascii_dec c a) as [<-|_]; [|done].
  by rewrite Ascii.eqb_refl in Ha.
Qed.

Lemma rindex_last_char (c : ascii) (x post : string) :
  lacks c post = true ->
  rindex (String c "") (x +:+ String c post) = Some (String.length x).
Proof.
  intros Hpost. induction x as [|a x IH].
  - rewrite append_nil_l. cbn [rindex]. rewrite (rindex_lacks c post Hpost).
    cbn [String.prefix]. destruct (ascii_dec c c); [|done]. by destruct post.
  - rewrite append_cons. cbn [rindex String.length]. by rewrite IH.
Qed.

(** A slice that cuts the middle part out of a string. *)
Lemma str_slice_middle (a m c : string) :
  str_slice (a +:+ m +:+ c) (Z.of_nat (String.length a))
            (Z.of_nat (String.length a + String.length m)) = m.
Proof.
  unfold str_slice, slice_bound. rewrite !length_append.
  set (la := String.length a). set (lm := String.length m).
  set (lc := String.length c).
  replace (Z.of_nat la <? 0) with false by (symmetry; apply Z.ltb_ge; lia).
  replace (Z.of_nat (la + lm) <? 0) with false by (symmetry; apply Z.ltb_ge; lia).
  replace (Z.to_nat (Z.max 0 (Z.min (Z.of_nat (la + (lm + lc))) (Z.of_nat la))))
    with (la + 0)%nat by lia.
  replace (Z.to_nat (Z.max 0 (Z.min (Z.of_nat (la + (lm + lc))) (Z.of_nat (la + lm)))
                     - Z.max 0 (Z.min (Z.of_nat (la + (lm + lc))) (Z.of_nat la))))
    with lm by lia.
  subst la lm. rewrite substring_append_skip. apply substring_append_exact.
Qed.

(** The text from the first opening brace to the last closing brace. *)
Lemma brace_candidate_in_prose (pre body post : string) :
  lacks "{" pre = true ->
  lacks "}" post = true ->
  brace_candidate (pre +:+ ("{" +:+ body +:+ "}") +:+ post)
  = Some ("{" +:+ body +:+ "}").
Proof.
  intros Hpre Hpost.
  set (object := "{" +:+ body +:+ "}").
  set (text := pre +:+ object +:+ post).
  assert (Hfind : str_find "{" text = Z.of_nat (String.length pre)).
  { unfold str_find. subst text object.
    change (("{" +:+ body +:+ "}") +:+ post)
      with (String "{" ((body +:+ "}") +:+ post)).
    by rewrite (index_first_char "{" pre _ Hpre). }
  assert (Hrfind : str_rfind "}" text
                   = Z.of_nat (String.length pre + String.length object) - 1).
  { unfold str_rfind.
    replace text with ((pre +:+ String "{" body) +:+ String "}" post).
    2: { subst text object. rewrite append_assoc. f_equal.
         change (("{" +:+ body +:+ "}") +:+ post)
           with (String "{" ((body +:+ "}") +:+ post)).
         rewrite append_cons. f_equal. by rewrite append_assoc. }
    rewrite (rindex_last_char "}" _ post Hpost), length_append.
    subst object. change ("{" +:+ body +:+ "}") with (String "{" (body +:+ "}")).
    cbn [String.length]. rewrite length_append. simpl. lia. }
  unfold brace_candidate. rewrite Hfind, Hrfind.
  assert (Hlen : (1 <= String.length object)%nat) by (subst object; simpl; lia).
  replace (negb (Z.of_nat (String.length pre) =? -1)) with true
    by (symmetry; apply negb_true_iff, Z.eqb_neq; lia).
  replace (negb (Z.of_nat (String.length pre + String.length object) - 1 =? -1))
    with true by (symmetry; apply negb_true_iff, Z.eqb_neq; lia).
  replace (Z.of_nat (String.length pre + String.length object) - 1
           >? Z.of_nat (String.length pre)) with true.
  2: { symmetry. apply Z.gtb_lt. subst object.
       change ("{" +:+ body +:+ "}") with (String "{" (body +:+ "}")).
       cbn [String.length]. rewrite length_append. simpl. lia. }
  cbn [andb]. f_equal.
  replace (Z.of_nat (String.length pre + String.length object) - 1 + 1)
    with (Z.of_nat (String.length pre + String.length object)) by lia.
  apply str_slice_middle.
Qed.

(** X13.  A JSON object inside prose is found: when no fenced block
    parses (there is none, or the decoder rejects it with
    [JSONDecodeError]), the prose before the object has no opening brace
    and the prose after it no closing brace, the parser returns the
    deserialized object, or the raw text if the object does not
    deserialize, whatever the decoder raises on it. *)
Theorem parse_extracts_object_from_prose (pre body post : string) :
  lacks "{" pre = true ->
  lacks "}" post = true ->
  fenced_result (pre +:+ ("{" +:+ body +:+ "}") +:+ post) = Val None ->
  parse_claude_response (pre +:+ ("{" +:+ body +:+ "}") +:+ post)
  = Val (match json_loads ("{" +:+ body +:+ "}") with
         | Val v => v
         | Raise _ => JDict [("raw_response",
                              JStr (pre +:+ ("{" +:+ body +:+ "}") +:+ post))]
         end).
Proof.
  intros Hpre Hpost Hfenced.
  rewrite parse_claude_response_eq, Hfenced. unfold parsed, braces_result.
  rewrite Hfenced, (brace_candidate_in_prose pre body post Hpre Hpost).
  by destruct (json_loads _).
Qed.

(** ** Fingerprint: the columns that do not count *)

(** X14.  A column other than the unit id, the description, the year and
    the condition has no influence on the fingerprint: setting it, to
    whatever value, leaves the fingerprint as it was. *)
Theorem fingerprint_ignores_other_columns (r : row) (k : string) (c : cell) :
  k <> "Unit #" -> k <> "Description" -> k <> "Year" -> k <> "Condition" ->
  get_equipment_hash (<[k := c]> r) = get_equipment_hash r.
Proof.
  intros H1 H2 H3 H4. unfold get_equipment_hash.
  by rewrite (item_str_ext (<[k := c]> r) r) by by rewrite lookup_insert_ne.
Qed.

(** X15.  A year or a condition column, whatever it holds (a value or
    NaN), gives a record with the two required columns no fingerprint:
    [get_equipment_hash] raises the [NameError] of the unbound [pd], and
    [process_equipment_item] raises it before it has looked anything up. *)
Theorem fingerprint_optional_column_raises
    (r : row) (k : string) (c : cell) (w : world) :
  k = "Year" \/ k = "Condition" ->
  has_required_fields r = true ->
  get_equipment_hash (<[k := c]> r) = Raise (NameError "pd")
  /\ process_equipment_item (<[k := c]> r) w = (Raise (NameError "pd"), w).
Proof.
  intros Hk (unit & descr & Hu & Hd)%has_required_fields_inv.
  assert (Hh : get_equipment_hash (<[k := c]> r) = Raise (NameError "pd")).
  { unfold get_equipment_hash. rewrite item_str_eq.
    destruct Hk as [-> | ->].
    - rewrite !lookup_insert_ne, Hu, Hd, lookup_insert_eq by done. done.
    - rewrite !lookup_insert_ne, Hu, Hd, lookup_insert_eq by done.
      by destruct (r !! "Year"). }
  split; [exact Hh|].
  unfold process_equipment_item, bind, lift. by rewrite Hh.
Qed.

(** ** Data checks *)

(** X16.  Unless the year is a text (which the comparison with 1900
    rejects with a [TypeError]), [identify_data_issues] returns at most one
    issue each for the description, the year and the condition, hence at
    most three: a missing description or a short one, a missing year or a
    questionable one, a missing condition, in the order of the checks. *)
Theorem issues_at_most_three (current_year : Z) (r : row) :
  (forall s, r !! "Year" <> Some (CStr s)) ->
  exists missing_description missing_year missing_condition
         questionable_year short_description,
    identify_data_issues current_year r
    = Some (missing_description ++ missing_year ++ missing_condition
            ++ questionable_year ++ short_description)%list
    /\ (missing_description = [] \/ missing_description = ["Missing Description"])
    /\ (missing_year = [] \/ missing_year = ["Missing Year"])
    /\ (missing_condition = [] \/ missing_condition = ["Missing Condition"])
    /\ (questionable_year = []
        \/ exists year, r !! "Year" = Some (CInt year)
                        /\ questionable_year = ["Questionable year: " +:+ pretty year])
    /\ (short_description = [] \/ short_description = ["Description too short"])
    /\ (missing_description = [] \/ short_description = [])
    /\ (missing_year = [] \/ questionable_year = [])
    /\ (length (missing_description ++ missing_year ++ missing_condition
                ++ questionable_year ++ short_description) <= 3)%nat.
Proof.
  intros Hyear.
  exists (missing_issue r "Description"), (missing_issue r "Year"),
    (missing_issue r "Condition"),
    (match year_issue current_year r with Some l => l | None => [] end),
    (description_issue r).
  unfold identify_data_issues, year_issue, missing_issue, description_issue, present.
  destruct (r !! "Year") as [[s|year|]|] eqn:Hy; [by destruct (Hyear s)| | |];
    destruct (r !! "Description") as [[d|d|]|];
    destruct (r !! "Condition") as [[c|c|]|]; cbn [pd_isna];
    repeat match goal with
           | |- context [if ?b then _ else _] => destruct b
           end;
    rewrite <- ?app_assoc;
    (split; [reflexivity|]);
    repeat split; try (by left); try (by right); try (simpl; lia);
    right; by exists year.
Qed.

(** X17.  [identify_data_issues] finds nothing exactly for the records
    whose description, if the column is there, is present and at least five
    characters long, whose year, if the column is there, is a number from
    1900 to next year, and whose condition, if the column is there, is
    present. *)
Theorem no_issues_iff_plausible (current_year : Z) (r : row) :
  identify_data_issues current_year r = Some []
  <-> match r !! "Description" with
      | Some c => pd_isna c = false /\ (5 <= String.length (str_cell c))%nat
      | None => True
      end
      /\ match r !! "Year" with
         | Some (CInt year) => 1900 <= year <= current_year + 1
         | Some _ => False
         | None => True
         end
      /\ match r !! "Condition" with
         | Some c => pd_isna c = false
         | None => True
         end.
Proof.
  unfold identify_data_issues, year_issue, missing_issue, description_issue, present.
  destruct (r !! "Year") as [[s|year|]|];
    destruct (r !! "Description") as [[d|d|]|];
    destruct (r !! "Condition") as [[c|c|]|]; cbn [pd_isna app str_cell];
    try destruct (Nat.ltb_spec (String.length d) 5);
    try destruct (Nat.ltb_spec (String.length (pretty d)) 5);
    try destruct (Z.ltb_spec year 1900);
    try (destruct (year >? current_year + 1) eqn:Hgt;
         [apply Z.gtb_lt in Hgt | rewrite Z.gtb_ltb in Hgt; apply Z.ltb_ge in Hgt]);
    cbn [orb app];
    (split; [intros [= ] | intros (Hd & Hy & Hc)]);
    try done; try tauto; try lia;
    try (repeat split; (done || lia)).
Qed.

(** ** Cleaning of the condition column *)

Lemma lower_ascii_idemp (c : ascii) : lower_ascii (lower_ascii c) = lower_ascii c.
Proof. destruct c as [[] [] [] [] [] [] [] []]; reflexivity. Qed.

Lemma str_lower_idemp (s : string) : str_lower (str_lower s) = str_lower s.
Proof.
  induction s as [|c s IH]; [done|]. simpl. by rewrite lower_ascii_idemp, IH.
Qed.

Lemma prefix_spec (p s : string) :
  String.prefix p s = true <-> exists b, s = p +:+ b.
Proof.
  revert s. induction p as [|c p IH]; intros s.
  - split; [|by destruct s]. intros _. by exists s.
  - destruct s as [|a s]; simpl.
    + split; [done|]. intros [b Hb]. rewrite append_cons in Hb. discriminate Hb.
    + destruct (ascii_dec c a) as [<-|Hne].
      * rewrite IH. split; intros [b Hb]; exists b.
        -- rewrite append_cons. by rewrite Hb.
        -- rewrite append_cons in Hb. by injection Hb.
      * split; [done|]. intros [b Hb]. rewrite append_cons in Hb.
        injection Hb as Hc _. by destruct Hne.
Qed.

(** [sub in s] holds exactly when [s] is some text, [sub], some text. *)
Lemma str_contains_spec (sub s : string) :
  str_contains sub s = true <-> exists a b, s = a +:+ sub +:+ b.
Proof.
  induction s as [|c s IH].
  - cbn [str_contains]. rewrite prefix_spec. split.
    + intros [b Hb]. by exists "", b.
    + intros ([|x a] & b & Hab).
      * rewrite append_nil_l in Hab. by exists b.
      * rewrite append_cons in Hab. discriminate Hab.
  - cbn [str_contains]. rewrite orb_true_iff, prefix_spec, IH. split.
    + intros [[b Hb] | (a & b & Hab)].
      * by exists "", b.
      * exists (String c a), b. rewrite append_cons. by rewrite Hab.
    + intros ([|x a] & b & Hab).
      * left. rewrite append_nil_l in Hab. by exists b.
      * right. rewrite append_cons in Hab. injection Hab as _ Hab. by exists a, b.
Qed.

(** A text that contains a key contains what the key contains. *)
Lemma str_contains_trans (k1 k2 s : string) :
  str_contains k1 k2 = true ->
  str_contains k2 s = true ->
  str_contains k1 s = true.
Proof.
  rewrite !str_contains_spec. intros (a1 & b1 & ->) (a & b & ->).
  exists (a +:+ a1), (b1 +:+ b). by rewrite !append_assoc.
Qed.

Lemma str_lower_not_Poor (s : string) : str_lower s <> "Poor".
Proof.
  destruct s as [|c s]; [done|]. simpl. intros [= Hc _]. revert Hc.
  destruct c as [[] [] [] [] [] [] [] []]; discriminate.
Qed.

(** X18.  A condition is standardised to [Poor] exactly when its text, in
    lower case, contains [poor], [broken] or [damaged] and none of [exc],
    [good] and [fair].  The entries [non-working] and [non working] of the
    table never decide: a text with one of them contains [working], which
    stands earlier in the table and gives [Good]. *)
Theorem condition_poor_iff (s : string) :
  clean_condition (Some s) = "Poor"
  <-> str_contains "exc" (str_lower s) = false
      /\ str_contains "good" (str_lower s) = false
      /\ str_contains "fair" (str_lower s) = false
      /\ (str_contains "poor" (str_lower s)
          || str_contains "broken" (str_lower s)
          || str_contains "damaged" (str_lower s)) = true.
Proof.
  unfold clean_condition, map_condition. rewrite str_lower_idemp.
  set (x := str_lower s).
  pose proof (str_contains_trans "exc" "excellent" x eq_refl) as Hexc.
  pose proof (str_contains_trans "working" "non-working" x eq_refl) as Hnw1.
  pose proof (str_contains_trans "working" "non working" x eq_refl) as Hnw2.
  unfold condition_mapping. cbn [first_match].
  destruct (str_contains "excellent" x) eqn:E1.
  { rewrite (Hexc eq_refl). split; [done | by intros [? _]]. }
  destruct (str_contains "exc" x) eqn:E2; [split; [done | by intros [? _]]|].
  destruct (str_contains "good" x) eqn:E3; [split; [done | by intros (_ & ? & _)]|].
  destruct (str_contains "fair" x) eqn:E4;
    [split; [done | by intros (_ & _ & ? & _)]|].
  destruct (str_contains "poor" x) eqn:E5; [done|].
  destruct (str_contains "broken" x) eqn:E6; [done|].
  destruct (str_contains "damaged" x) eqn:E7; [done|].
  cbn [orb].
  destruct (str_contains "new" x) eqn:E8; [split; [done | by intros (_ & _ & _ & ?)]|].
  destruct (str_contains "like new" x) eqn:E9;
    [split; [done | by intros (_ & _ & _ & ?)]|].
  destruct (str_contains "used" x) eqn:E10;
    [split; [done | by intros (_ & _ & _ & ?)]|].
  destruct (str_contains "working" x) eqn:E11;
    [split; [done | by intros (_ & _ & _ & ?)]|].
  destruct (str_contains "non-working" x) eqn:E12; [by specialize (Hnw1 eq_refl)|].
  destruct (str_contains "non working" x) eqn:E13; [by specialize (Hnw2 eq_refl)|].
  destruct (str_contains "unknown" x) eqn:E14;
    [split; [done | by intros (_ & _ & _ & ?)]|].
  split; [|by intros (_ & _ & _ & ?)].
  intros H. by destruct (str_lower_not_Poor s).
Qed.

Lemma first_match_value (text v : string) :
  first_match condition_mapping text = Some v ->
  v = "Excellent" \/ v = "Good" \/ v = "Fair" \/ v = "Poor" \/ v = "Unknown".
Proof.
  clear md5_hexdigest json_dumps json_dumps_indent json_loads service.
  unfold condition_mapping. cbn [first_match].
  repeat match goal with
         | |- context [if ?b then _ else _] => destruct b
         end; intros [= <-]; tauto.
Qed.

(** X19.  Cleaning a condition twice is cleaning it once: a standard
    label stays what it is, and a text the table does not know stays in
    lower case as it is. *)
Theorem clean_condition_idempotent (c : option string) :
  clean_condition (Some (clean_condition c)) = clean_condition c.
Proof.
  unfold clean_condition at 2 3. unfold map_condition. rewrite str_lower_idemp.
  set (x := str_lower (match c with Some s => s | None => "Unknown" end)).
  destruct (first_match condition_mapping x) as [v|] eqn:Hm.
  - by destruct (first_match_value x v Hm) as [->|[->|[->|[->| ->]]]].
  - unfold clean_condition, map_condition. subst x.
    by rewrite !str_lower_idemp, Hm.
Qed.

(** ** Result files of a batch *)

Lemma str_replace_char_lacks (old new : ascii) (s : string) :
  new <> old -> lacks old (str_replace_char old new s) = true.
Proof.
  intros Hne. induction s as [|c s IH]; [done|]. simpl. rewrite IH.
  destruct (Ascii.eqb c old) eqn:E.
  - apply Ascii.eqb_neq in Hne. by rewrite Hne.
  - by rewrite E.
Qed.

Lemma str_replace_char_keeps_lacks (old new c : ascii) (s : string) :
  new <> c -> lacks c s = true -> lacks c (str_replace_char old new s) = true.
Proof.
  intros Hne. induction s as [|a s IH]; [done|]. simpl.
  intros [Ha Hs]%andb_prop. rewrite (IH Hs).
  destruct (Ascii.eqb a old); [|by rewrite Ha].
  apply Ascii.eqb_neq in Hne. by rewrite Hne.
Qed.

Lemma lacks_append (c : ascii) (a b : string) :
  lacks c (a +:+ b) = lacks c a && lacks c b.
Proof.
  induction a as [|x a IH]; [done|].
  rewrite append_cons. simpl. by rewrite IH, andb_assoc.
Qed.

Lemma lacks_prefix_false (c : ascii) (s : string) :
  lacks c s = true -> s <> "" -> String.prefix (String c "") s = false.
Proof.
  destruct s as [|a s]; [done|]. simpl. intros [Ha _]%andb_prop _.
  destruct (ascii_dec c a) as [<-|_]; [|done].
  by rewrite Ascii.eqb_refl in Ha.
Qed.

(** X20.  The name of an item file has no slash and no backslash left in
    it, whatever the unit id, so the file is written directly in the output
    directory. *)
Theorem item_file_is_in_output_directory (output : string) (unit_id : cell) :
  lacks "/" (safe_id unit_id +:+ ".json") = true
  /\ lacks "\" (safe_id unit_id +:+ ".json") = true
  /\ item_path output unit_id
     = (if String.eqb output "" then ""
        else if str_endswith "/" output then output
        else output +:+ "/") +:+ safe_id unit_id +:+ ".json".
Proof.
  assert (Hslash : lacks "/" (safe_id unit_id +:+ ".json") = true).
  { rewrite lacks_append. apply andb_true_intro. split; [|done].
    unfold safe_id. apply str_replace_char_keeps_lacks; [done|].
    by apply str_replace_char_lacks. }
  split; [exact Hslash|]. split.
  { rewrite lacks_append. apply andb_true_intro. split; [|done].
    unfold safe_id. by apply str_replace_char_lacks. }
  unfold item_path, path_join.
  rewrite (lacks_prefix_false "/" _ Hslash).
  2: { intros H%(f_equal String.length). rewrite length_append in H.
       simpl in H. lia. }
  destruct (String.eqb output ""); [done|].
  destruct (str_endswith "/" output); [done|].
  by rewrite append_assoc.
Qed.

Lemma write_item_files_disk (output : string) (results : list (cell * json))
    (w : world) (path : string) :
  disk (snd (write_item_files output results w)) !! path
  = match assoc_lookup path
            (rev (map (fun kv => (item_path output (fst kv), snd kv)) results)) with
    | Some v => Some (json_dumps_indent v)
    | None => disk w !! path
    end.
Proof.
  revert w. induction results as [|[k v] results IH]; intros w; [done|].
  cbn [write_item_files]. unfold bind at 1, write_json at 1.
  rewrite IH. cbn [map rev fst snd]. rewrite assoc_lookup_app.
  destruct (assoc_lookup path _) as [v'|]; [done|].
  cbn [assoc_lookup disk set_disk].
  destruct (decide (item_path output k = path)) as [<-|Hne].
  - by rewrite lookup_insert_eq.
  - by rewrite lookup_insert_ne.
Qed.

(** The directory after the item files and the combined file are written. *)
Lemma write_results_disk (output : string) (results : list (cell * json))
    (w : world) (path : string) :
  disk (snd (write_results output results w)) !! path
  = if decide (path = combined_path output)
    then Some (json_dumps_indent (combined_json results))
    else
      match assoc_lookup path
              (rev (map (fun kv => (item_path output (fst kv), snd kv)) results)) with
      | Some v => Some (json_dumps_indent v)
      | None => disk w !! path
      end.
Proof.
  unfold write_results, bind.
  pose proof (write_item_files_disk output results w path) as Hitems.
  destruct (write_item_files output results w) as [[[]|e] w1] eqn:Hw.
  - unfold write_json. cbn [snd disk set_disk].
    destruct (decide (path = combined_path output)) as [->|Hne].
    + by rewrite lookup_insert_eq.
    + rewrite lookup_insert_ne by done. exact Hitems.
  - exfalso. clear Hitems. revert w Hw.
    induction results as [|[k v] results IH]; intros w; [done|].
    cbn [write_item_files]. unfold bind at 1, write_json at 1. apply IH.
Qed.

(** X21.  After the results are written, the combined file holds the dump
    of the whole mapping, whatever the unit ids; any other path holds the
    dump of the last result whose item file has that path, and is as it was
    if there is none. *)
Theorem write_results_files (output : string) (results : list (cell * json))
    (w : world) (path : string) :
  disk (snd (write_results output results w)) !! path
  = if decide (path = combined_path output)
    then Some (json_dumps_indent (combined_json results))
    else
      match assoc_lookup path
              (rev (map (fun kv => (item_path output (fst kv), snd kv)) results)) with
      | Some v => Some (json_dumps_indent v)
      | None => disk w !! path
      end.
Proof. apply write_results_disk. Qed.

(** X22.  When the item files of the unit ids have pairwise different
    paths, none of them the path of the combined file, every unit id finds
    the dump of its own result in its item file. *)
Theorem write_results_own_file (output : string) (results : list (cell * json))
    (w : world) (unit_id : cell) (result : json) :
  NoDup (map (fun kv => item_path output (fst kv)) results) ->
  (forall kv, kv ∈ results -> item_path output (fst kv) <> combined_path output) ->
  (unit_id, result) ∈ results ->
  disk (snd (write_results output results w)) !! item_path output unit_id
  = Some (json_dumps_indent result).
Proof.
  intros Hnd Hcomb Hin. rewrite write_results_disk.
  destruct (decide _) as [Heq|_]; [by destruct (Hcomb _ Hin)|].
  assert (Hl : assoc_lookup (item_path output unit_id)
                 (rev (map (fun kv => (item_path output (fst kv), snd kv)) results))
               = Some result); [|by rewrite Hl].
  clear Hcomb. induction results as [|[k v] results IH]; [by apply elem_of_nil in Hin|].
  cbn [map rev fst snd] in *. rewrite assoc_lookup_app.
  apply NoDup_cons in Hnd as [Hk Hnd].
  apply elem_of_cons in Hin as [[= <- <-]|Hin].
  - destruct (assoc_lookup _ _) as [v'|] eqn:Hl.
    + exfalso. apply Hk. clear -Hl.
      induction results as [|[k' v''] results IH]; [done|].
      cbn [map rev fst snd] in *. rewrite assoc_lookup_app in Hl.
      destruct (assoc_lookup _ (rev _)) as [v0|] eqn:Hl0.
      * right. by apply IH.
      * cbn [assoc_lookup] in Hl.
        destruct (decide (item_path output k' = item_path output unit_id)) as [->|];
          [by left | done].
    + cbn [assoc_lookup]. by destruct (decide _).
  - by rewrite (IH Hnd Hin).
Qed.

End Valuation.

(** * Closed instances *)

(** C1, at the failing input.  The claim is that a result with an [error]
    key is never written to the cache.  Here the service answers the first
    request with a JSON object that has an [error] key:
    [process_equipment_item] returns that mapping, an [error]-bearing
    result, and has written it to the cache under the record's
    fingerprint, where a fresh lookup finds it. *)
Theorem error_bearing_response_is_cached :
  let run :=
    process_equipment_item Ref.hexdigest Ref.dumps Ref.loads
      (Ref.scripted [inr Sample.error_reply]) Sample.row_A1 Ref.empty_world in
  get_equipment_hash Ref.hexdigest Sample.row_A1 = Val Sample.h_A1
  /\ fst run = Val (JDict [("error", JStr "quota exceeded")])
  /\ disk (snd run) !! cache_path Sample.h_A1
     = Some (Ref.dumps (JDict [("error", JStr "quota exceeded")]))
  /\ read_cache Ref.loads Sample.h_A1 (disk (snd run))
     = JDict [("error", JStr "quota exceeded")].
Proof. vm_compute. repeat split; reflexivity. Qed.

(** C2, as stated, fails: the cache holds the empty mapping for the
    record's fingerprint and the lookup returns it, yet
    [process_equipment_item] asks the service and returns the answer. *)
Lemma empty_cached_value_is_refetched :
  let w := Sample.world_with Sample.h_A1 "{}" in
  let run :=
    process_equipment_item Ref.hexdigest Ref.dumps Ref.loads
      (Sample.always Sample.structured_reply) Sample.row_A1 w in
  get_equipment_hash Ref.hexdigest Sample.row_A1 = Val Sample.h_A1
  /\ fst (get_cached_valuation Ref.loads Sample.h_A1 w) = Val (JDict [])
  /\ fst run = Val Sample.valuation
  /\ calls_made (trace w) = 0%nat
  /\ calls_made (trace (snd run)) = 1%nat.
Proof. vm_compute. repeat split; reflexivity. Qed.

(** A truthy cached value is returned although the service would refuse. *)
Lemma cache_hit_returns_without_call_witness :
  let w := Sample.world_with Sample.h_A1 Sample.valuation_text in
  let w0 := snd (get_cached_valuation Ref.loads Sample.h_A1 w) in
  process_equipment_item Ref.hexdigest Ref.dumps Ref.loads (Ref.scripted [])
    Sample.row_A1 w = (Val Sample.valuation, w0)
  /\ trace w0 = trace w
  /\ disk w0 = disk w.
Proof.
  apply (cache_hit_returns_without_call Ref.hexdigest Ref.dumps Ref.loads
           (Ref.scripted []) Sample.row_A1
           (Sample.world_with Sample.h_A1 Sample.valuation_text) _
           Sample.h_A1 Sample.valuation);
    vm_compute; reflexivity.
Defined.

(** C3, at the failing input.  The claim is that a lookup after a store
    returns what was stored.  In a process that has looked the fingerprint
    up before (as every valuation does before it stores), the stored
    result is on disk, and the lookup after the store still answers
    [None]. *)
Theorem lookup_after_store_is_stale :
  let w1 := snd (get_cached_valuation Ref.loads Sample.h_A1 Ref.empty_world) in
  let w2 := snd (save_to_cache Ref.dumps Sample.h_A1 Sample.valuation w1) in
  has_key "error" Sample.valuation = false
  /\ read_cache Ref.loads Sample.h_A1 (disk w2) = Sample.valuation
  /\ fst (get_cached_valuation Ref.loads Sample.h_A1 w2) = Val JNull.
Proof. vm_compute. repeat split; reflexivity. Qed.

(** The same through the client: valued twice in one process, a record is
    sent to the service twice. *)
Example second_valuation_calls_again :
  let valuate :=
    process_equipment_item Ref.hexdigest Ref.dumps Ref.loads
      (Sample.always Sample.structured_reply) Sample.row_A1 in
  let w1 := snd (valuate Ref.empty_world) in
  calls_made (trace w1) = 1%nat
  /\ calls_made (trace (snd (valuate w1))) = 2%nat.
Proof. vm_compute. split; reflexivity. Qed.

(** Two failures, then a response: three requests, waits of 2 and 4, and
    the parsed response returned. *)
Lemma retry_policy_on_miss_witness :
  exists result w',
    process_equipment_item Ref.hexdigest Ref.dumps Ref.loads
      (Ref.scripted [inl "timeout"; inl "overloaded"; inr Sample.structured_reply])
      Sample.row_A1 Ref.empty_world = (Val result, w')
    /\ result = Sample.valuation
    /\ calls_made (trace w') = 3%nat
    /\ sleeps (trace w') = [2%Q; 4%Q].
Proof.
  destruct (retry_policy_on_miss Ref.hexdigest Ref.dumps Ref.loads
              (Ref.scripted [inl "timeout"; inl "overloaded";
                             inr Sample.structured_reply])
              Sample.row_A1 Ref.empty_world
              (snd (get_cached_valuation Ref.loads Sample.h_A1 Ref.empty_world))
              Sample.h_A1 JNull)
    as [_ Hcase];
    [vm_compute; reflexivity | vm_compute; reflexivity | reflexivity |].
  assert (Hloc : Sample.row_A1 !! "Location" = None) by (vm_compute; reflexivity).
  rewrite Hloc in Hcase. destruct Hcase as (p & result & w' & _ & Hrun & Hcase).
  assert (Hout : forall rq,
             attempt_outcome Ref.loads
               (Ref.scripted [inl "timeout"; inl "overloaded";
                              inr Sample.structured_reply]) 2 rq
             = inr Sample.valuation) by (intros rq; vm_compute; reflexivity).
  cbv zeta in Hcase.
  change (calls_made (trace Ref.empty_world)) with 0%nat in Hcase.
  rewrite Hout in Hcase.
  change (attempt_outcome Ref.loads _ 0 (valuation_request p))
    with (@inl exn json (ServiceError "timeout")) in Hcase.
  change (attempt_outcome Ref.loads _ 1 (valuation_request p))
    with (@inl exn json (ServiceError "overloaded")) in Hcase.
  destruct Hcase as [Hresult Htrace].
  exists result, w'. split; [exact Hrun|].
  rewrite Htrace, Hresult. vm_compute. repeat split; reflexivity.
Defined.

(** A response whose parse raises is a failed attempt like a request that
    raises: it is waited on and retried. *)
Example unparsable_response_is_retried :
  let run :=
    process_equipment_item Ref.hexdigest Ref.dumps Ref.loads
      (Ref.scripted [inr Sample.huge_integer_reply; inr Sample.structured_reply])
      Sample.row_A1 Ref.empty_world in
  fst run = Val Sample.valuation
  /\ calls_made (trace (snd run)) = 2%nat
  /\ sleeps (trace (snd run)) = [2%Q].
Proof. vm_compute. repeat split; reflexivity. Qed.

(** Three responses whose parse raises: the message of the last exception
    comes back under [error] and nothing is written, although no request
    raised. *)
Example unparsable_responses_exhaust_retries :
  let run :=
    process_equipment_item Ref.hexdigest Ref.dumps Ref.loads
      (Sample.always Sample.huge_integer_reply) Sample.row_A1 Ref.empty_world in
  fst run = Val (JDict [("error", JStr (str_exn (Ref.digits_error 5000)))])
  /\ calls_made (trace (snd run)) = 3%nat
  /\ disk (snd run) = disk Ref.empty_world.
Proof. vm_compute. repeat split; reflexivity. Qed.

(** A record with a location column, on a miss: building the prompt
    raises and no request is sent. *)
Example located_record_is_not_valued :
  let run :=
    process_equipment_item Ref.hexdigest Ref.dumps Ref.loads
      (Sample.always Sample.structured_reply) Sample.row_A1_located
      Ref.empty_world in
  fst run = Raise (NameError "pd")
  /\ calls_made (trace (snd run)) = 0%nat.
Proof. vm_compute. split; reflexivity. Qed.


(** C6, at the failing input.  The claim is that the parser never raises.
    Here the response carries a fenced [json] block that holds an integer
    literal of 5000 digits: [json.loads] raises [ValueError] on the block,
    the [except json.JSONDecodeError] of the first strategy does not catch
    it, and the parser raises it.  The second strategy, with its bare
    [except], does swallow the same exception: the same literal inside
    braces comes back as raw text. *)
Theorem parse_raises_on_oversized_integer :
  re_search_json_block Sample.huge_integer_reply = Some Sample.huge_integer
  /\ String.length Sample.huge_integer = 5000%nat
  /\ Ref.loads Sample.huge_integer = Raise (Ref.digits_error 5000)
  /\ parse_claude_response Ref.loads Sample.huge_integer_reply
     = Raise (Ref.digits_error 5000)
  /\ parse_braces Ref.loads Sample.huge_integer_object
     = Val (JDict [("raw_response", JStr Sample.huge_integer_object)]).
Proof. vm_compute. repeat split; reflexivity. Qed.

(** Prose comes back verbatim under [raw_response]. *)
Example prose_is_returned_raw :
  parse_claude_response Ref.loads Sample.prose_reply
  = Val (JDict [("raw_response", JStr "I cannot value this item.")]).
Proof. vm_compute. reflexivity. Qed.



(** C8, as stated, fails for the limit 0, which selects no record as a
    prefix: all five records are processed.  (A negative limit drops
    records from the end: with -2, three are processed.) *)
Lemma limit_zero_processes_all :
  let run limit :=
    process_equipment_list Ref.hexdigest Ref.dumps Ref.loads
      (Sample.always Sample.structured_reply) Sample.fleet (Some limit)
      Ref.empty_world in
  firstn (Z.to_nat 0) Sample.fleet = []
  /\ fst (run 0)
     = Val [(CStr "U1", Sample.valuation); (CStr "U2", Sample.valuation);
            (CStr "U3", Sample.valuation); (CStr "U4", Sample.valuation);
            (CStr "U5", Sample.valuation)]
  /\ calls_made (trace (snd (run 0))) = 5%nat
  /\ calls_made (trace (snd (run (-2)))) = 3%nat.
Proof. vm_compute. repeat split; reflexivity. Qed.

(** Five records and the limit 2: the first two, in order. *)
Lemma batch_processes_prefix_witness :
  0 < 2
  /\ forallb plain_record (firstn (Z.to_nat 2) Sample.fleet) = true
  /\ exists results w' outs,
       process_equipment_list Ref.hexdigest Ref.dumps Ref.loads
         (Sample.always Sample.structured_reply) Sample.fleet (Some 2)
         Ref.empty_world = (Val results, w')
       /\ sequential_run Ref.hexdigest Ref.dumps Ref.loads
            (Sample.always Sample.structured_reply)
            [Sample.unit_row "U1"; Sample.unit_row "U2"] Ref.empty_world outs w'
       /\ map fst outs = [CStr "U1"; CStr "U2"]
       /\ forall k, k ∈ map fst results <-> k ∈ [CStr "U1"; CStr "U2"].
Proof.
  split; [lia|]. split; [vm_compute; reflexivity|].
  destruct (batch_processes_prefix Ref.hexdigest Ref.dumps Ref.loads
              (Sample.always Sample.structured_reply) Sample.fleet 2
              Ref.empty_world)
    as [Hprefix Hreturns]; [lia|].
  destruct Hreturns as (results & w' & Hrun); [vm_compute; reflexivity|].
  destruct (Hprefix results w' Hrun) as (outs & Hseq & Hids & _ & Hkeys).
  assert (Houts : map fst outs = [CStr "U1"; CStr "U2"]).
  { destruct outs as [|[k1 v1] [|[k2 v2] [|o outs]]]; try discriminate Hids.
    by injection Hids as <- <-. }
  exists results, w', outs. split; [exact Hrun|]. split; [exact Hseq|].
  split; [exact Houts|]. by rewrite <- Houts.
Defined.

(** C9, at the failing inputs.  The claim is that every failure of
    [enhance_valuation] returns the prior valuation under
    [original_valuation] next to the [error].  When the response parses to a
    mapping with an [error], or to something that is not a mapping, the
    result has the [error] key alone: the prior valuation is not in it. *)
Theorem enhance_failure_drops_original :
  let enhance reply :=
    fst (enhance_valuation Ref.hexdigest Ref.dumps Ref.dumps Ref.loads
           (Ref.scripted [inr reply]) (CStr "A1") Sample.valuation
           Sample.row_A1 Ref.empty_world) in
  enhance Sample.error_reply
  = Val (JDict [("error", JStr "Failed to enhance valuation")])
  /\ enhance Sample.list_reply
     = Val (JDict [("error", JStr "Failed to enhance valuation")])
  /\ has_key "original_valuation"
       (JDict [("error", JStr "Failed to enhance valuation")]) = false.
Proof. vm_compute. repeat split; reflexivity. Qed.

(** A response with a justification and no analysis: the justification is
    what the returned mapping carries as its analysis. *)
Lemma enhanced_result_has_analysis_witness :
  let run :=
    enhance_valuation Ref.hexdigest Ref.dumps Ref.dumps Ref.loads
      (Ref.scripted [inr Sample.justified_reply]) (CStr "A1") Sample.valuation
      Sample.row_A1 Ref.empty_world in
  let v := JDict [("new_value", JInt 52000);
                  ("justification", JStr "Strong regional demand");
                  ("enhanced_analysis", JStr "Strong regional demand")] in
  run = (Val v, snd run)
  /\ has_key "error" v = false
  /\ has_key "enhanced_analysis" v = true.
Proof.
  intros run v.
  assert (Hrun : run = (Val v, snd run)) by (vm_compute; reflexivity).
  assert (Hne : has_key "error" v = false) by reflexivity.
  split; [exact Hrun|]. split; [exact Hne|].
  exact (proj1 (enhanced_result_has_analysis Ref.hexdigest Ref.dumps Ref.dumps
                  Ref.loads (Ref.scripted [inr Sample.justified_reply])
                  (CStr "A1") Sample.valuation Sample.row_A1 Ref.empty_world
                  (snd run) v Hrun Hne)).
Defined.

(** * Closed instances of the further properties *)

Lemma incomplete_record_raises_untouched_witness :
  exists k,
    (k = "Unit #" \/ k = "Description")
    /\ Sample.row_nameless !! k = None
    /\ process_equipment_item Ref.hexdigest Ref.dumps Ref.loads
         (Sample.always Sample.structured_reply) Sample.row_nameless
         Ref.empty_world = (Raise (KeyError k), Ref.empty_world).
Proof.
  apply (incomplete_record_raises_untouched Ref.hexdigest Ref.dumps Ref.loads
           (Sample.always Sample.structured_reply) Sample.row_nameless
           Ref.empty_world).
  vm_compute. reflexivity.
Defined.

Lemma memo_stays_well_formed_witness :
  memo_ok (memo (snd (process_equipment_item Ref.hexdigest Ref.dumps Ref.loads
                        (Sample.always Sample.structured_reply) Sample.row_A1
                        Ref.empty_world))).
Proof.
  apply (memo_stays_well_formed Ref.hexdigest Ref.dumps Ref.loads
           (Sample.always Sample.structured_reply) Sample.row_A1 Ref.empty_world).
  split; [constructor | unfold lru_maxsize; simpl; lia].
Defined.

Lemma valuation_writes_only_own_entry_witness :
  let w := Sample.world_with "0000" "{}" in
  disk (snd (process_equipment_item Ref.hexdigest Ref.dumps Ref.loads
               (Sample.always Sample.structured_reply) Sample.row_A1 w))
    !! cache_path "0000"
  = disk w !! cache_path "0000".
Proof.
  apply (valuation_writes_only_own_entry Ref.hexdigest Ref.dumps Ref.loads
           (Sample.always Sample.structured_reply) Sample.row_A1
           (Sample.world_with "0000" "{}") (cache_path "0000")).
  intros h Hh. vm_compute in Hh. injection Hh as <-. vm_compute. discriminate.
Defined.

Lemma fetched_result_is_stored_witness :
  exists result w',
    process_equipment_item Ref.hexdigest Ref.dumps Ref.loads
      (Sample.always Sample.structured_reply) Sample.row_A1 Ref.empty_world
    = (Val result, w')
    /\ disk w' !! cache_path Sample.h_A1 = Some (Ref.dumps result).
Proof.
  destruct (fetched_result_is_stored Ref.hexdigest Ref.dumps Ref.loads
              (Sample.always Sample.structured_reply) Sample.row_A1
              Ref.empty_world
              (snd (get_cached_valuation Ref.loads Sample.h_A1 Ref.empty_world))
              Sample.h_A1 JNull)
    as (p & result & w' & _ & Hrun & [[_ (e1 & _ & _ & H1 & _)]|[Hput _]]);
    [vm_compute; reflexivity | vm_compute; reflexivity | reflexivity
    | vm_compute; reflexivity | |].
  - exfalso. revert H1.
    change (attempt_outcome Ref.loads (Sample.always Sample.structured_reply)
              (calls_made (trace Ref.empty_world)) (valuation_request p))
      with (match parse_claude_response Ref.loads Sample.structured_reply with
            | Val v => @inr exn json v
            | Raise e => inl e
            end).
    replace (parse_claude_response Ref.loads Sample.structured_reply)
      with (Val Sample.valuation) by (vm_compute; reflexivity).
    discriminate.
  - exists result, w'. split; [exact Hrun|]. rewrite Hput. apply lookup_insert_eq.
Defined.

Lemma corrupt_entry_is_a_miss_witness :
  let valuate :=
    process_equipment_item Ref.hexdigest Ref.dumps Ref.loads
      (Sample.always Sample.structured_reply) Sample.row_A1 in
  let corrupt :=
    set_disk (<[cache_path Sample.h_A1 := "{oops"]> (disk Ref.empty_world))
             Ref.empty_world in
  let absent :=
    set_disk (delete (cache_path Sample.h_A1) (disk Ref.empty_world))
             Ref.empty_world in
  fst (valuate corrupt) = fst (valuate absent)
  /\ trace (snd (valuate corrupt)) = trace (snd (valuate absent)).
Proof.
  apply (corrupt_entry_is_a_miss Ref.hexdigest Ref.dumps Ref.loads
           (Sample.always Sample.structured_reply) Sample.row_A1
           Ref.empty_world Sample.h_A1 "{oops" JSONDecodeError);
    vm_compute; reflexivity.
Defined.

Lemma stored_result_is_hit_in_new_process_witness :
  let d : gmap string string :=
    {[cache_path Sample.h_A1 := Ref.dumps Sample.valuation]} in
  process_equipment_item Ref.hexdigest Ref.dumps Ref.loads (Ref.scripted [])
    Sample.row_A1 (World d [] [])
  = (Val Sample.valuation, World d [(Sample.h_A1, Sample.valuation)] []).
Proof.
  apply (stored_result_is_hit_in_new_process Ref.hexdigest Ref.dumps Ref.loads
           (Ref.scripted []) Sample.row_A1 Sample.h_A1 Sample.valuation);
    vm_compute; reflexivity.
Defined.

Lemma lookup_after_store_fresh_witness :
  fst (get_cached_valuation Ref.loads Sample.h_A1
         (snd (save_to_cache Ref.dumps Sample.h_A1 Sample.valuation
                 Ref.empty_world)))
  = Val Sample.valuation.
Proof.
  apply (lookup_after_store_fresh Ref.dumps Ref.loads Sample.h_A1 Sample.valuation
           Ref.empty_world);
    vm_compute; reflexivity.
Defined.

Lemma enhancement_keeps_base_entry_witness :
  let w := Sample.world_with Sample.h_A1 Sample.valuation_text in
  let w' :=
    snd (enhance_valuation Ref.hexdigest Ref.dumps Ref.dumps Ref.loads
           (Sample.always Sample.justified_reply) (CStr "A1") Sample.valuation
           Sample.row_A1 w) in
  disk w' !! cache_path Sample.h_A1 = Some Sample.valuation_text.
Proof.
  intros w w'.
  destruct (enhancement_keeps_base_entry Ref.hexdigest Ref.dumps Ref.dumps
              Ref.loads (Sample.always Sample.justified_reply) (CStr "A1")
              Sample.valuation Sample.row_A1 w Sample.h_A1)
    as [Hbase _]; [vm_compute; reflexivity|].
  subst w'. rewrite Hbase. vm_compute. reflexivity.
Defined.

Lemma enhancement_is_one_request_witness :
  calls_made
    (trace (snd (enhance_valuation Ref.hexdigest Ref.dumps Ref.dumps Ref.loads
                   (Ref.scripted [inl "timeout"; inr Sample.justified_reply])
                   (CStr "A1") Sample.valuation Sample.row_A1 Ref.empty_world)))
  = 1%nat.
Proof.
  destruct (enhancement_prompt Ref.dumps Sample.valuation Sample.row_A1)
    as [p|e] eqn:Hp; [|vm_compute in Hp; discriminate Hp].
  destruct (enhancement_is_one_request Ref.hexdigest Ref.dumps Ref.dumps Ref.loads
              (Ref.scripted [inl "timeout"; inr Sample.justified_reply])
              (CStr "A1") Sample.valuation Sample.row_A1 Ref.empty_world p Hp)
    as [Htrace _].
  rewrite Htrace. reflexivity.
Defined.

Lemma enhancement_accepts_raw_response_witness :
  fst (enhance_valuation Ref.hexdigest Ref.dumps Ref.dumps Ref.loads
         (Sample.always Sample.prose_reply) (CStr "A1") Sample.valuation
         Sample.row_A1 Ref.empty_world)
  = Val (JDict [("raw_response", JStr Sample.prose_reply);
                ("enhanced_analysis", JStr "")]).
Proof.
  destruct (enhancement_prompt Ref.dumps Sample.valuation Sample.row_A1)
    as [p|e] eqn:Hp; [|vm_compute in Hp; discriminate Hp].
  apply (enhancement_accepts_raw_response Ref.hexdigest Ref.dumps Ref.dumps
           Ref.loads (Sample.always Sample.prose_reply) (CStr "A1")
           Sample.valuation Sample.row_A1 Ref.empty_world p Sample.prose_reply
           Sample.h_A1 Hp);
    vm_compute; reflexivity.
Defined.



Lemma batch_keeps_last_result_per_id_witness :
  forallb plain_record (select_rows None Sample.repeated) = true
  /\ exists results w',
       process_equipment_list Ref.hexdigest Ref.dumps Ref.loads
         (Ref.scripted [inr Sample.structured_reply]) Sample.repeated None
         Ref.empty_world = (Val results, w')
       /\ NoDup (map fst results).
Proof.
  split; [vm_compute; reflexivity|].
  destruct (batch_keeps_last_result_per_id Ref.hexdigest Ref.dumps Ref.loads
              (Ref.scripted [inr Sample.structured_reply]) Sample.repeated None
              Ref.empty_world)
    as [Hlast Hreturns].
  destruct Hreturns as (results & w' & Hrun); [vm_compute; reflexivity|].
  destruct (Hlast results w' Hrun) as (outs & _ & Hnd & _).
  exists results, w'. split; [exact Hrun | exact Hnd].
Defined.

Lemma parse_extracts_object_from_prose_witness :
  parse_claude_response Ref.loads
    ("The valuation is " +:+ ("{" +:+ (quoted "new_value" +:+ ": 50000") +:+ "}")
     +:+ " as of today.")
  = Val (JDict [("new_value", JInt 50000)]).
Proof.
  rewrite (parse_extracts_object_from_prose Ref.loads "The valuation is "
             (quoted "new_value" +:+ ": 50000") " as of today.");
    vm_compute; reflexivity.
Defined.

Lemma fingerprint_ignores_other_columns_witness :
  get_equipment_hash Ref.hexdigest (<["Location" := CStr "Texas"]> Sample.row_A1)
  = get_equipment_hash Ref.hexdigest Sample.row_A1.
Proof.
  apply (fingerprint_ignores_other_columns Ref.hexdigest Sample.row_A1
           "Location" (CStr "Texas"));
    discriminate.
Defined.

Lemma fingerprint_optional_column_raises_witness :
  get_equipment_hash Ref.hexdigest (<["Year" := CInt 2015]> Sample.row_A1)
  = Raise (NameError "pd")
  /\ get_equipment_hash Ref.hexdigest (<["Condition" := CNaN]> Sample.row_A1)
     = Raise (NameError "pd").
Proof.
  split.
  - apply (fingerprint_optional_column_raises Ref.hexdigest Ref.dumps Ref.loads
             (Ref.scripted []) Sample.row_A1 "Year" (CInt 2015) Ref.empty_world);
      [left; reflexivity | vm_compute; reflexivity].
  - apply (fingerprint_optional_column_raises Ref.hexdigest Ref.dumps Ref.loads
             (Ref.scripted []) Sample.row_A1 "Condition" CNaN Ref.empty_world);
      [right; reflexivity | vm_compute; reflexivity].
Defined.

Lemma issues_at_most_three_witness :
  identify_data_issues 2025
    (<["Description" := CStr "Doz"]>
       (<["Year" := CInt 1850]> (<["Condition" := CNaN]> Sample.row_A1)))
  = Some ["Missing Condition"; "Questionable year: 1850"; "Description too short"]
  /\ exists missing_description missing_year missing_condition
            questionable_year short_description,
       identify_data_issues 2025
         (<["Description" := CStr "Doz"]>
            (<["Year" := CInt 1850]> (<["Condition" := CNaN]> Sample.row_A1)))
       = Some (missing_description ++ missing_year ++ missing_condition
               ++ questionable_year ++ short_description)%list
       /\ (length (missing_description ++ missing_year ++ missing_condition
                   ++ questionable_year ++ short_description) <= 3)%nat.
Proof.
  split; [vm_compute; reflexivity|].
  destruct (issues_at_most_three 2025
              (<["Description" := CStr "Doz"]>
                 (<["Year" := CInt 1850]> (<["Condition" := CNaN]> Sample.row_A1))))
    as (md & my & mc & qy & sd & Hissues & _ & _ & _ & _ & _ & _ & _ & Hlen).
  { intros s. vm_compute. discriminate. }
  exists md, my, mc, qy, sd. split; [exact Hissues | exact Hlen].
Defined.

Lemma no_issues_iff_plausible_witness :
  identify_data_issues 2025 Sample.row_plausible = Some [].
Proof.
  apply (proj2 (no_issues_iff_plausible 2025 Sample.row_plausible)).
  vm_compute. repeat split; first [reflexivity | lia | discriminate].
Defined.

Lemma condition_poor_iff_witness :
  clean_condition (Some "Broken axle") = "Poor"
  /\ clean_condition (Some "Non-Working") <> "Poor".
Proof.
  split.
  - apply (proj2 (condition_poor_iff "Broken axle")). vm_compute.
    repeat split; reflexivity.
  - intros H. apply (proj1 (condition_poor_iff "Non-Working")) in H.
    vm_compute in H. destruct H as (_ & _ & _ & H). discriminate H.
Defined.

Lemma write_results_own_file_witness :
  disk (snd (write_results Ref.dumps "out" Sample.two_results Ref.empty_world))
    !! "out/U-1.json"
  = Some "1".
Proof.
  apply (write_results_own_file Ref.dumps "out" Sample.two_results
           Ref.empty_world (CStr "U/1") (JInt 1)).
  - vm_compute. repeat constructor; by (rewrite ?elem_of_cons, ?elem_of_nil;
      intros H; repeat destruct H as [H|H]; try discriminate H).
  - intros kv Hkv. vm_compute in Hkv.
    apply elem_of_cons in Hkv as [->|Hkv]; [vm_compute; discriminate|].
    apply elem_of_cons in Hkv as [->|Hkv]; [vm_compute; discriminate|].
    by apply elem_of_nil in Hkv.
  - apply elem_of_cons. by left.
Defined.
